(** * Comparador: viewport synchronisation and contrast panel

    A shallow embedding of the state handled by [src/App.tsx] (and of its
    second variant, which has no contrast panel): zoom linking, scroll
    linking, the contrast panel's drag / resize / dock handlers, its mirror
    scrolling, the document slots and the lazily rendered page list.

    Conventions.
    - A JavaScript [number] is an exact rational ([Q], compared with [==]);
      IEEE rounding, [NaN] and the infinities are outside that model. Where
      a statement rests on one computed number being exactly another, the
      zoom handlers are taken on doubles instead ([Zoom64]).
    - A React state cell is a record field; an event handler is a function
      from the state of the render it closes over to the state of the next
      render. Effects run after the render, when a dependency changed.
    - A ref to a DOM element is an [option]: [None] when nothing is mounted. *)

From Stdlib Require Import QArith Qminmax Qround Lqa ZArith Lia.
From Stdlib Require Import Bool List String Sorted Permutation PeanoNat.
From Stdlib Require Import Floats.
Import ListNotations.

Open Scope Q_scope.

(** [Math.max] and [Math.min] on two numbers. *)
Definition Math_max (a b : Q) : Q := Qmax a b.
Definition Math_min (a b : Q) : Q := Qmin a b.

Inductive Side := Left | Right.

(** The two source files of the application: [App.tsx], and a second file
    with the same [App] and [PDFViewer] but no contrast panel. They share the
    code below except where a definition takes a [Variant]. *)
Inductive Variant := AppTsx | Part000.

(** ** Zoom linking (component [App]) *)

Module Zoom.

Record State := mkState {
  leftScale : Q;
  rightScale : Q;
  syncZoom : bool;
  zoomDiff : Q
}.

(** [useState(1)], [useState(1)], [useState(true)], [useState(0)]. *)
Definition initial : State :=
  {| leftScale := 1; rightScale := 1; syncZoom := true; zoomDiff := 0 |}.

Definition setLeftScale (v : Q) (s : State) : State :=
  {| leftScale := v; rightScale := rightScale s;
     syncZoom := syncZoom s; zoomDiff := zoomDiff s |}.

Definition setRightScale (v : Q) (s : State) : State :=
  {| leftScale := leftScale s; rightScale := v;
     syncZoom := syncZoom s; zoomDiff := zoomDiff s |}.

Definition setSyncZoom (b : bool) (s : State) : State :=
  {| leftScale := leftScale s; rightScale := rightScale s;
     syncZoom := b; zoomDiff := zoomDiff s |}.

Definition setZoomDiff (v : Q) (s : State) : State :=
  {| leftScale := leftScale s; rightScale := rightScale s;
     syncZoom := syncZoom s; zoomDiff := v |}.

(** The handlers read [leftScale], [syncZoom] and [zoomDiff] of the render
    [s] they were created in; the setters are batched into the next one. *)
Definition changeLeftZoom (delta : Q) (s : State) : State :=
  let newScale := Math_max 0.5 (Math_min 2 (leftScale s + delta)) in
  let s' := setLeftScale newScale s in
  if syncZoom s then setRightScale (newScale + zoomDiff s) s' else s'.

Definition changeRightZoom (delta : Q) (s : State) : State :=
  let newScale := Math_max 0.5 (Math_min 2 (rightScale s + delta)) in
  let s' := setRightScale newScale s in
  if syncZoom s then setLeftScale (newScale - zoomDiff s) s' else s'.

(** The specification's [changeScale(side, delta)]. *)
Definition changeScale (side : Side) (delta : Q) (s : State) : State :=
  match side with
  | Left => changeLeftZoom delta s
  | Right => changeRightZoom delta s
  end.

(** Body of the effect: [if (syncZoom) setZoomDiff(rightScale - leftScale)]. *)
Definition zoomDiffEffect (s : State) : State :=
  if syncZoom s then setZoomDiff (rightScale s - leftScale s) s else s.

(** Its dependency array: [[syncZoom, rightScale, leftScale]] in App.tsx,
    [[syncZoom]] in the second variant. The result tells whether some
    dependency differs between two consecutive renders. *)
Definition depsChanged (v : Variant) (prev next : State) : bool :=
  match v with
  | AppTsx =>
      negb (Bool.eqb (syncZoom prev) (syncZoom next))
      || negb (Qeq_bool (rightScale prev) (rightScale next))
      || negb (Qeq_bool (leftScale prev) (leftScale next))
  | Part000 =>
      negb (Bool.eqb (syncZoom prev) (syncZoom next))
  end.

(** Effects after a render: always on mount ([prev = None]), afterwards only
    when a dependency changed. *)
Definition commit (v : Variant) (prev : option State) (next : State) : State :=
  match prev with
  | None => zoomDiffEffect next
  | Some p => if depsChanged v p next then zoomDiffEffect next else next
  end.

(** What the user can do: the four zoom buttons ([changeLeftZoom(-0.1)],
    [changeLeftZoom(0.1)], and the same on the right) and the link button
    ([setSyncZoom(prev => !prev)]). *)
Inductive Event :=
| LeftMinus | LeftPlus | RightMinus | RightPlus | ToggleSyncZoom.

Definition handle (e : Event) (s : State) : State :=
  match e with
  | LeftMinus => changeLeftZoom (-0.1) s
  | LeftPlus => changeLeftZoom 0.1 s
  | RightMinus => changeRightZoom (-0.1) s
  | RightPlus => changeRightZoom 0.1 s
  | ToggleSyncZoom => setSyncZoom (negb (syncZoom s)) s
  end.

Definition step (v : Variant) (s : State) (e : Event) : State :=
  commit v (Some s) (handle e s).

Definition mounted (v : Variant) : State := commit v None initial.

Definition run (v : Variant) (es : list Event) : State :=
  fold_left (step v) es (mounted v).

Definition reachable (v : Variant) (s : State) : Prop :=
  exists es, s = run v es.

Definition inRange (x : Q) : Prop := 0.5 <= x <= 2.

(** Clamping as the specification words it. *)
Definition clamp (x lo hi : Q) : Q := Qmax lo (Qmin hi x).

Definition scaleOf (side : Side) (s : State) : Q :=
  match side with Left => leftScale s | Right => rightScale s end.

(** The scale the handler of [side] gives to the other side when linked:
    right = left + offset, left = right - offset. *)
Definition derivedScale (side : Side) (newScale : Q) (s : State) : Q :=
  match side with
  | Left => newScale + zoomDiff s
  | Right => newScale - zoomDiff s
  end.

(** Unlink, zoom the left side out once, link again (the offset becomes 0.1),
    then zoom the right side out four times: left 0.5, right 0.6. *)
Definition zoomOutTrace : list Event :=
  [ToggleSyncZoom; LeftMinus; ToggleSyncZoom;
   RightMinus; RightMinus; RightMinus; RightMinus].

(** Unlink, bring the left side down to 0.5 and the right side up to 2.0,
    link again: the state of the specification's example, offset 1.5. *)
Definition exampleTrace : list Event :=
  [ToggleSyncZoom;
   LeftMinus; LeftMinus; LeftMinus; LeftMinus; LeftMinus;
   RightPlus; RightPlus; RightPlus; RightPlus; RightPlus;
   RightPlus; RightPlus; RightPlus; RightPlus; RightPlus;
   ToggleSyncZoom].

(** The effect is run again by every change of a scale while linked. *)
Definition recomputesOnScaleChange (v : Variant) : Prop :=
  forall prev next,
    syncZoom prev = true -> syncZoom next = true ->
    ~ leftScale prev == leftScale next \/ ~ rightScale prev == rightScale next ->
    depsChanged v prev next = true.

End Zoom.

(** ** The contrast panel: drag, resize, dock, local zoom
    (component [ContrastPanel], App.tsx only) *)

Module Panel.

Record Point := mkPoint { x : Q; y : Q }.

Record Size := mkSize { wRatio : Q; hRatio : Q }.

Record ResizeStart := mkResizeStart {
  startW : Q; startH : Q; startX : Q; startY : Q
}.

(** The state cells ([position], [dragging], [size], [resizing], [docked],
    [panelZoom]) and the two refs written by the handlers ([dragOffset],
    [resizeStart]). *)
Record State := mkState {
  position : Point;
  dragging : bool;
  dragOffset : Point;
  size : Size;
  resizing : bool;
  resizeStart : ResizeStart;
  docked : bool;
  panelZoom : Q
}.

Definition initial : State :=
  {| position := mkPoint 24 24;
     dragging := false;
     dragOffset := mkPoint 0 0;
     size := mkSize 0.25 0.25;
     resizing := false;
     resizeStart := mkResizeStart 0 0 0 0;
     docked := false;
     panelZoom := 1 |}.

Definition setPosition (v : Point) (s : State) : State :=
  mkState v (dragging s) (dragOffset s) (size s) (resizing s)
          (resizeStart s) (docked s) (panelZoom s).

Definition setDragging (v : bool) (s : State) : State :=
  mkState (position s) v (dragOffset s) (size s) (resizing s)
          (resizeStart s) (docked s) (panelZoom s).

Definition setDragOffset (v : Point) (s : State) : State :=
  mkState (position s) (dragging s) v (size s) (resizing s)
          (resizeStart s) (docked s) (panelZoom s).

Definition setSize (v : Size) (s : State) : State :=
  mkState (position s) (dragging s) (dragOffset s) v (resizing s)
          (resizeStart s) (docked s) (panelZoom s).

Definition setResizing (v : bool) (s : State) : State :=
  mkState (position s) (dragging s) (dragOffset s) (size s) v
          (resizeStart s) (docked s) (panelZoom s).

Definition setResizeStart (v : ResizeStart) (s : State) : State :=
  mkState (position s) (dragging s) (dragOffset s) (size s) (resizing s)
          v (docked s) (panelZoom s).

Definition setDocked (v : bool) (s : State) : State :=
  mkState (position s) (dragging s) (dragOffset s) (size s) (resizing s)
          (resizeStart s) v (panelZoom s).

Definition setPanelZoom (v : Q) (s : State) : State :=
  mkState (position s) (dragging s) (dragOffset s) (size s) (resizing s)
          (resizeStart s) (docked s) v.

(** What the handlers read of a mouse event; [onDragHandle] is the outcome of
    [e.target.closest('.contrast-drag-handle')]. *)
Record MouseEvent := mkMouseEvent {
  clientX : Q; clientY : Q; onDragHandle : bool
}.

(** [window.innerWidth] and [window.innerHeight] when the handler runs. *)
Record Window := mkWindow { innerWidth : Q; innerHeight : Q }.

(** [panelRef.current.getBoundingClientRect()]. *)
Record Rect := mkRect { width : Q; height : Q }.

Definition onMouseDown (e : MouseEvent) (s : State) : State :=
  if onDragHandle e then
    setDragOffset
      (mkPoint (clientX e - x (position s)) (clientY e - y (position s)))
      (setDragging true s)
  else s.

Definition onMouseMove (e : MouseEvent) (w : Window) (s : State) : State :=
  let s1 :=
    if dragging s && negb (docked s) then
      setPosition
        (mkPoint (clientX e - x (dragOffset s)) (clientY e - y (dragOffset s)))
        s
    else s in
  if resizing s && negb (docked s) then
    let dx := clientX e - startX (resizeStart s) in
    let dy := clientY e - startY (resizeStart s) in
    let newW := Math_max 260 (startW (resizeStart s) + dx) in
    let newH := Math_max 220 (startH (resizeStart s) + dy) in
    setSize
      (mkSize (Math_min 0.95 (newW / innerWidth w))
              (Math_min 0.95 (newH / innerHeight w)))
      s1
  else s1.

Definition onMouseUp (s : State) : State :=
  setResizing false (setDragging false s).

(** [panelRef] is the ref of the panel's root element. *)
Definition startResize (e : MouseEvent) (panelRef : option Rect) (s : State)
  : State :=
  match panelRef with
  | None => s
  | Some rect =>
      setResizeStart
        (mkResizeStart (width rect) (height rect) (clientX e) (clientY e))
        (setResizing true s)
  end.

(** The dock button: [setDocked((d) => !d)]. *)
Definition toggleDocked (s : State) : State := setDocked (negb (docked s)) s.

(** [+(z).toFixed(2)]: the nearest number with two decimals. *)
Definition toFixed2 (z : Q) : Q := inject_Z (Qfloor (z * 100 + 0.5)) / 100.

Definition zoomOut (s : State) : State :=
  setPanelZoom (Math_max 0.5 (toFixed2 (panelZoom s - 0.1))) s.

Definition zoomIn (s : State) : State :=
  setPanelZoom (Math_min 2 (toFixed2 (panelZoom s + 0.1))) s.

(** Everything that reaches the panel's handlers. *)
Inductive Event :=
| MouseDown (e : MouseEvent)
| MouseMove (e : MouseEvent) (w : Window)
| MouseUp
| StartResize (e : MouseEvent) (panelRef : option Rect)
| ToggleDocked
| ZoomOut
| ZoomIn.

Definition step (s : State) (ev : Event) : State :=
  match ev with
  | MouseDown e => onMouseDown e s
  | MouseMove e w => onMouseMove e w s
  | MouseUp => onMouseUp s
  | StartResize e r => startResize e r s
  | ToggleDocked => toggleDocked s
  | ZoomOut => zoomOut s
  | ZoomIn => zoomIn s
  end.

Definition run (evs : list Event) (s : State) : State := fold_left step evs s.

Definition isMouseMove (ev : Event) : bool :=
  match ev with MouseMove _ _ => true | _ => false end.

Definition isToggleDocked (ev : Event) : bool :=
  match ev with ToggleDocked => true | _ => false end.

(** A window of 200 x 200 CSS pixels, where the initial panel (a quarter of
    the window each way, at (24, 24)) measures 50 x 50; the grip is pressed
    at (70, 70) and the pointer then moves to (71, 71). *)
Definition narrowWindow : Window := mkWindow 200 200.

Definition resizingState : State :=
  startResize (mkMouseEvent 70 70 false) (Some (mkRect 50 50)) initial.

Definition smallMove : MouseEvent := mkMouseEvent 71 71 false.

End Panel.

(** ** Scroll linking ([App]) and mirror scrolling ([ContrastPanel])

    The four scroll containers are the two primary ones ([leftContainerRef],
    [rightContainerRef]) and the panel's two mirrors ([overlayLeftRef],
    [overlayRightRef]); each is [Some scrollTop] when mounted. *)

Module Scroll.

Inductive Target := PrimaryLeft | PrimaryRight | MirrorLeft | MirrorRight.

Definition isPrimary (t : Target) : bool :=
  match t with PrimaryLeft | PrimaryRight => true | _ => false end.

(** [isSyncing] is the ref used as latch; [timers] counts the callbacks
    passed to [setTimeout(..., 0)] that have not run yet; [writes] is the
    history of the assignments [el.scrollTop = v] made by the scripts, latest
    first (the user moving a scrollbar is not a write). *)
Record State := mkState {
  syncScroll : bool;
  scrollDiff : Q;
  isSyncing : bool;
  leftContainer : option Q;
  rightContainer : option Q;
  overlayLeft : option Q;
  overlayRight : option Q;
  visible : bool;
  timers : nat;
  writes : list (Target * Q)
}.

Definition setSyncScroll (v : bool) (s : State) : State :=
  mkState v (scrollDiff s) (isSyncing s) (leftContainer s) (rightContainer s)
          (overlayLeft s) (overlayRight s) (visible s) (timers s) (writes s).

Definition setScrollDiff (v : Q) (s : State) : State :=
  mkState (syncScroll s) v (isSyncing s) (leftContainer s) (rightContainer s)
          (overlayLeft s) (overlayRight s) (visible s) (timers s) (writes s).

Definition setIsSyncing (v : bool) (s : State) : State :=
  mkState (syncScroll s) (scrollDiff s) v (leftContainer s) (rightContainer s)
          (overlayLeft s) (overlayRight s) (visible s) (timers s) (writes s).

Definition setTimers (n : nat) (s : State) : State :=
  mkState (syncScroll s) (scrollDiff s) (isSyncing s) (leftContainer s)
          (rightContainer s) (overlayLeft s) (overlayRight s) (visible s) n
          (writes s).

Definition scrollTopOf (t : Target) (s : State) : option Q :=
  match t with
  | PrimaryLeft => leftContainer s
  | PrimaryRight => rightContainer s
  | MirrorLeft => overlayLeft s
  | MirrorRight => overlayRight s
  end.

(** The container [t] now shows offset [v]; nothing is recorded. *)
Definition place (t : Target) (v : Q) (s : State) : State :=
  match t with
  | PrimaryLeft =>
      mkState (syncScroll s) (scrollDiff s) (isSyncing s) (Some v)
              (rightContainer s) (overlayLeft s) (overlayRight s) (visible s)
              (timers s) (writes s)
  | PrimaryRight =>
      mkState (syncScroll s) (scrollDiff s) (isSyncing s) (leftContainer s)
              (Some v) (overlayLeft s) (overlayRight s) (visible s)
              (timers s) (writes s)
  | MirrorLeft =>
      mkState (syncScroll s) (scrollDiff s) (isSyncing s) (leftContainer s)
              (rightContainer s) (Some v) (overlayRight s) (visible s)
              (timers s) (writes s)
  | MirrorRight =>
      mkState (syncScroll s) (scrollDiff s) (isSyncing s) (leftContainer s)
              (rightContainer s) (overlayLeft s) (Some v) (visible s)
              (timers s) (writes s)
  end.

Definition record (t : Target) (v : Q) (s : State) : State :=
  mkState (syncScroll s) (scrollDiff s) (isSyncing s) (leftContainer s)
          (rightContainer s) (overlayLeft s) (overlayRight s) (visible s)
          (timers s) ((t, v) :: writes s).

(** The assignment [ref.current.scrollTop = v] guarded by [if (ref.current)].
    The range limit a browser applies to the assigned offset is not modelled:
    the container holds what was assigned. *)
Definition assignScrollTop (t : Target) (v : Q) (s : State) : State :=
  match scrollTopOf t s with
  | Some _ => record t v (place t v s)
  | None => s
  end.

(** [setTimeout(() => (isSyncing.current = false), 0)]. *)
Definition setTimeout (s : State) : State := setTimers (S (timers s)) s.

(** [scrollTop] is [e.currentTarget.scrollTop]. *)
Definition onLeftScroll (scrollTop : Q) (s : State) : State :=
  if negb (syncScroll s) || isSyncing s then s
  else
    setTimeout
      (assignScrollTop PrimaryRight (scrollTop + scrollDiff s)
         (setIsSyncing true s)).

Definition onRightScroll (scrollTop : Q) (s : State) : State :=
  if negb (syncScroll s) || isSyncing s then s
  else
    setTimeout
      (assignScrollTop PrimaryLeft (scrollTop - scrollDiff s)
         (setIsSyncing true s)).

(** The panel's listeners [onLeft] and [onRight], registered on the primary
    containers by the effect that runs while [visible]. *)
Definition onLeft (s : State) : State :=
  match overlayLeft s, leftContainer s with
  | Some _, Some v => assignScrollTop MirrorLeft v s
  | _, _ => s
  end.

Definition onRight (s : State) : State :=
  match overlayRight s, rightContainer s with
  | Some _, Some v => assignScrollTop MirrorRight v s
  | _, _ => s
  end.

(** [sync()], called by that effect when it runs. *)
Definition sync (s : State) : State := onRight (onLeft s).

(** A [scroll] event dispatched on a primary container: React's [onScroll]
    prop of the viewer, and the panel's listener when it is registered. *)
Definition dispatchScroll (side : Side) (s : State) : State :=
  match side with
  | Left =>
      match leftContainer s with
      | None => s
      | Some v =>
          let s1 := onLeftScroll v s in
          if visible s then onLeft s1 else s1
      end
  | Right =>
      match rightContainer s with
      | None => s
      | Some v =>
          let s1 := onRightScroll v s in
          if visible s then onRight s1 else s1
      end
  end.

Definition primaryOf (side : Side) : Target :=
  match side with Left => PrimaryLeft | Right => PrimaryRight end.

Definition mirrorOf (side : Side) : Target :=
  match side with Left => MirrorLeft | Right => MirrorRight end.

Definition other (side : Side) : Side :=
  match side with Left => Right | Right => Left end.

(** The user scrolls a primary container to offset [v]. *)
Definition userScroll (side : Side) (v : Q) (s : State) : State :=
  match scrollTopOf (primaryOf side) s with
  | None => s
  | Some _ => dispatchScroll side (place (primaryOf side) v s)
  end.

(** A [scroll] event on a mirror container: the mirror viewers are given no
    [onScroll] prop and the panel registers nothing on them. *)
Definition dispatchMirrorScroll (side : Side) (s : State) : State := s.

(** The next task of the scheduler: one pending timer callback runs. *)
Definition timeout (s : State) : State :=
  match timers s with
  | O => s
  | S n => setTimers n (setIsSyncing false s)
  end.

(** The scroll-link button and the effect on [[syncScroll]]. *)
Definition scrollDiffEffect (s : State) : State :=
  match syncScroll s, leftContainer s, rightContainer s with
  | true, Some l, Some r => setScrollDiff (r - l) s
  | _, _, _ => s
  end.

Definition toggleSyncScroll (s : State) : State :=
  scrollDiffEffect (setSyncScroll (negb (syncScroll s)) s).

(** The contrast switch. The panel renders nothing while hidden; when shown
    it mounts a mirror viewer, scrolled to the top, for each side that has a
    document, and its effect then calls [sync]. *)
Definition mountMirrors (s : State) : State :=
  mkState (syncScroll s) (scrollDiff s) (isSyncing s) (leftContainer s)
          (rightContainer s)
          (option_map (fun _ => 0) (leftContainer s))
          (option_map (fun _ => 0) (rightContainer s))
          true (timers s) (writes s).

Definition unmountMirrors (s : State) : State :=
  mkState (syncScroll s) (scrollDiff s) (isSyncing s) (leftContainer s)
          (rightContainer s) None None false (timers s) (writes s).

Definition toggleContrast (s : State) : State :=
  if visible s then unmountMirrors s else sync (mountMirrors s).

Inductive Event :=
| UserScroll (side : Side) (v : Q)
| ScrollEvent (side : Side)
| MirrorScrollEvent (side : Side)
| Timeout
| ToggleSyncScroll
| ToggleContrast.

Definition step (s : State) (ev : Event) : State :=
  match ev with
  | UserScroll side v => userScroll side v s
  | ScrollEvent side => dispatchScroll side s
  | MirrorScrollEvent side => dispatchMirrorScroll side s
  | Timeout => timeout s
  | ToggleSyncScroll => toggleSyncScroll s
  | ToggleContrast => toggleContrast s
  end.

Definition run (evs : list Event) (s : State) : State := fold_left step evs s.

(** Events that are scroll events, on any of the four containers. *)
Definition isScroll (ev : Event) : bool :=
  match ev with
  | UserScroll _ _ | ScrollEvent _ | MirrorScrollEvent _ => true
  | _ => false
  end.

Definition writesTo (t : Target) (s : State) : list Q :=
  map snd (filter (fun w =>
    match fst w, t with
    | PrimaryLeft, PrimaryLeft | PrimaryRight, PrimaryRight
    | MirrorLeft, MirrorLeft | MirrorRight, MirrorRight => true
    | _, _ => false
    end) (writes s)).

Definition primaryWrites (s : State) : list (Target * Q) :=
  filter (fun w => isPrimary (fst w)) (writes s).

(** The offset written to the container paired with [side]. *)
Definition echoOffset (side : Side) (v : Q) (s : State) : Q :=
  match side with
  | Left => v + scrollDiff s
  | Right => v - scrollDiff s
  end.

(** Two documents loaded and linked, the right one 40 px ahead. *)
Definition linkedPage : State :=
  mkState true 40 false (Some 0) (Some 40) (Some 0) (Some 40) true 0 [].

End Scroll.

(** ** Document slots ([App]) *)

Module Documents.

(** A [File] picked or dropped by the user; only its name is ever read. *)
Record File := mkFile { name : string }.

(** A row of the report: [{ label, left, right }]. *)
Record SummaryItem := mkItem {
  label : string;
  itemLeft : option string;
  itemRight : option string
}.

Record State := mkState {
  leftPDF : option File;
  rightPDF : option File;
  leftInputKey : Z;
  rightInputKey : Z;
  summary : list SummaryItem
}.

(** [now] and [now'] stand for the two readings of [Date.now()]. *)
Definition swapDocuments (now now' : Z) (s : State) : State :=
  {| leftPDF := rightPDF s;
     rightPDF := leftPDF s;
     leftInputKey := now;
     rightInputKey := now';
     summary :=
       map (fun item => mkItem (label item) (itemRight item) (itemLeft item))
           (summary s) |}.

Definition removeDocument (side : Side) (now : Z) (s : State) : State :=
  match side with
  | Left =>
      {| leftPDF := None; rightPDF := rightPDF s;
         leftInputKey := now; rightInputKey := rightInputKey s;
         summary := summary s |}
  | Right =>
      {| leftPDF := leftPDF s; rightPDF := None;
         leftInputKey := leftInputKey s; rightInputKey := now;
         summary := summary s |}
  end.

Definition refreshDocuments (now now' : Z) (s : State) : State :=
  {| leftPDF := None; rightPDF := None;
     leftInputKey := now; rightInputKey := now';
     summary := summary s |}.

Definition handleOf (side : Side) (s : State) : option File :=
  match side with Left => leftPDF s | Right => rightPDF s end.

(** Two loaded documents. *)
Definition twoLoaded : State :=
  mkState (Some (mkFile "a.pdf")) (Some (mkFile "b.pdf")) 1 2 [].

End Documents.

(** ** Lazily rendered pages (component [PDFViewer], both files) *)

Module PDFViewer.

(** An [IntersectionObserverEntry]: [isIntersecting], and the number read by
    [Number(entry.target.getAttribute('data-page-number'))], which is [0]
    when the attribute is missing. *)
Record Entry := mkEntry { isIntersecting : bool; dataPageNumber : nat }.

(** [.filter(isIntersecting).map(Number(...)).filter(Boolean)]: [Boolean]
    rejects [0]. *)
Definition visibleOf (entries : list Entry) : list nat :=
  filter (fun n => negb (n =? 0)%nat)
         (map dataPageNumber (filter isIntersecting entries)).

(** [new Set(l)] spread back into an array: first occurrences, in order. *)
Definition setAdd (acc : list nat) (n : nat) : list nat :=
  if existsb (Nat.eqb n) acc then acc else acc ++ [n].

Definition newSet (l : list nat) : list nat := fold_left setAdd l [].

(** [(a, b) => a - b]. *)
Definition compareFn (a b : nat) : Z := (Z.of_nat a - Z.of_nat b)%Z.

(** [Array.prototype.sort(compareFn)], a stable sort: each element goes in
    front of the first one it does not compare greater than. *)
Fixpoint insertBy (cmp : nat -> nat -> Z) (n : nat) (l : list nat) : list nat :=
  match l with
  | [] => [n]
  | m :: l' =>
      if (cmp n m <=? 0)%Z then n :: m :: l' else m :: insertBy cmp n l'
  end.

Definition sortBy (cmp : nat -> nat -> Z) (l : list nat) : list nat :=
  fold_right (insertBy cmp) [] l.

(** The state update made by the observer's callback. *)
Definition callback (entries : list Entry) (prev : list nat) : list nat :=
  let visible := visibleOf entries in
  let newPages := newSet (prev ++ visible) in
  sortBy compareFn newPages.

(** [visiblePages] after a series of callbacks, from [useState([])] on. *)
Definition run (cbs : list (list Entry)) : list nat :=
  fold_left (fun prev entries => callback entries prev) cbs [].

(** The numbers given to the page placeholders, which the observer watches:
    [index + 1] for each [index] of [new Array(numPages)]. *)
Definition pageNumbers (numPages : nat) : list nat :=
  map (fun index => index + 1)%nat (seq 0 numPages).

(** [visiblePages.includes(pageNumber)]: the page is rendered. *)
Definition rendered (pageNumber : nat) (visiblePages : list nat) : bool :=
  existsb (Nat.eqb pageNumber) visiblePages.

End PDFViewer.

(** ** File intake and file names ([App]) *)

Module Intake.
Import Documents.

(** A [File] as the intake handlers see it: the handle kept in the slot and
    its [type] (the MIME type). *)
Record Upload := mkUpload { file : File; type : string }.

Definition isPdf (u : Upload) : bool := (type u =? "application/pdf")%string.

Definition setLeftPDF (v : option File) (s : State) : State :=
  mkState v (rightPDF s) (leftInputKey s) (rightInputKey s) (summary s).

Definition setRightPDF (v : option File) (s : State) : State :=
  mkState (leftPDF s) v (leftInputKey s) (rightInputKey s) (summary s).

Definition setPDF (side : Side) (v : option File) (s : State) : State :=
  match side with Left => setLeftPDF v s | Right => setRightPDF v s end.

(** [files] is [e.target.files], absent or a list. *)
Definition handleFileChange (files : option (list Upload)) (side : Side)
    (s : State) : State :=
  match files with
  | Some (u :: _) => setPDF side (Some (file u)) s
  | _ => s
  end.

Definition handleBothFilesChange (files : list Upload) (s : State) : State :=
  let pdfFiles := filter isPdf files in
  match pdfFiles with
  | [] => s
  | [u] =>
      match leftPDF s, rightPDF s with
      | None, _ => setLeftPDF (Some (file u)) s
      | Some _, None => setRightPDF (Some (file u)) s
      | Some _, Some _ => s
      end
  | u0 :: u1 :: _ => setRightPDF (Some (file u1)) (setLeftPDF (Some (file u0)) s)
  end.

(** [files] is [e.dataTransfer.files]. *)
Definition handleDrop (files : list Upload) (side : Side) (s : State) : State :=
  match handleOf side s with
  | Some _ => s
  | None =>
      match files with
      | u :: _ => if isPdf u then setPDF side (Some (file u)) s else s
      | [] => s
      end
  end.


End Intake.

(** ** Labels and the report ([App]) *)

Module Labels.
Import Documents.

(** The menu opened by a right click: [{ x, y, selectedText, side }]. *)
Record ContextMenu := mkMenu {
  x : Q; y : Q; selectedText : string; side : Side
}.

(** [docs] holds the slots and the report rows ([summary]). *)
Record State := mkState {
  enableEtiquetar : bool;
  labels : list string;
  docs : Documents.State;
  contextMenu : option ContextMenu;
  labelSearch : string
}.

Definition initialLabels : list string :=
  ["Poliza"; "Inicio"; "Fin"; "Sum Aseg"; "P Total"; "Comision";
   "Inicio Pago"; "Dedicible"; "Clausula"; "Condicion"; "Cobertura";
   "Dato Contratante"; "Dato Asegurado"; "Dato Bien"; "Anexo"; "Corredor";
   "Observacion"]%string.

(** [now] is the reading of [Date.now()] taken for both input keys. *)
Definition initial (now : Z) : State :=
  mkState false initialLabels (Documents.mkState None None now now []) None "".

Definition setLabels (v : list string) (s : State) : State :=
  mkState (enableEtiquetar s) v (docs s) (contextMenu s) (labelSearch s).

Definition setSummary (v : list SummaryItem) (s : State) : State :=
  mkState (enableEtiquetar s) (labels s)
          (Documents.mkState (leftPDF (docs s)) (rightPDF (docs s))
             (leftInputKey (docs s)) (rightInputKey (docs s)) v)
          (contextMenu s) (labelSearch s).

Definition setDocs (v : Documents.State) (s : State) : State :=
  mkState (enableEtiquetar s) (labels s) v (contextMenu s) (labelSearch s).

(** [setContextMenu(null); setLabelSearch('')]. *)
Definition closeMenu (s : State) : State :=
  mkState (enableEtiquetar s) (labels s) (docs s) None "".

(** A string or [undefined] used as a condition. *)
Definition truthy (o : option string) : bool :=
  match o with
  | Some t => negb (t =? "")%string
  | None => false
  end.

(** [arr.findIndex(p)], with [None] for [-1]. *)
Fixpoint findIndex {A : Type} (p : A -> bool) (l : list A) : option nat :=
  match l with
  | [] => None
  | a :: l' =>
      if p a then Some O
      else match findIndex p l' with Some i => Some (S i) | None => None end
  end.

(** [arr[i] = v] for an index within the array. *)
Fixpoint replaceAt {A : Type} (i : nat) (v : A) (l : list A) : list A :=
  match l, i with
  | [], _ => []
  | _ :: l', O => v :: l'
  | a :: l', S j => a :: replaceAt j v l'
  end.

(** [labels.includes(label)]. *)
Definition includes (label : string) (l : list string) : bool :=
  existsb (String.eqb label) l.

Definition hasLabel (l : string) (item : SummaryItem) : bool :=
  (label item =? l)%string.

(** [{ ...item, [side]: text }] and [{ label, [side]: text }]. *)
Definition withSide (sd : Side) (text : string) (item : SummaryItem)
  : SummaryItem :=
  match sd with
  | Left => mkItem (label item) (Some text) (itemRight item)
  | Right => mkItem (label item) (itemLeft item) (Some text)
  end.

Definition newItem (l : string) (sd : Side) (text : string) : SummaryItem :=
  match sd with
  | Left => mkItem l (Some text) None
  | Right => mkItem l None (Some text)
  end.

(** The array returned by the updater passed to [setSummary]. *)
Definition assign (l : string) (sd : Side) (text : string)
    (prev : list SummaryItem) : list SummaryItem :=
  match findIndex (hasLabel l) prev with
  | Some index =>
      match nth_error prev index with
      | Some item => replaceAt index (withSide sd text item) prev
      | None => prev
      end
  | None => prev ++ [newItem l sd text]
  end.

Definition handleLabelSelect (l : string) (s : State) : State :=
  match contextMenu s with
  | None => s
  | Some menu =>
      let newSummary :=
        assign l (side menu) (selectedText menu) (summary (docs s)) in
      let labels' :=
        match find (hasLabel l) newSummary with
        | Some currentItem =>
            if truthy (itemLeft currentItem) && truthy (itemRight currentItem)
            then filter (fun l' => negb (l' =? l)%string) (labels s)
            else labels s
        | None => labels s
        end in
      closeMenu (setLabels labels' (setSummary newSummary s))
  end.

Definition removeFromSummary (l : string) (s : State) : State :=
  let s' :=
    setSummary (filter (fun item => negb (hasLabel l item)) (summary (docs s)))
               s in
  if includes l (labels s) then s' else setLabels (labels s ++ [l]) s'.

Definition removeLabel (labelToRemove : string) (s : State) : State :=
  setSummary
    (filter (fun item => negb (hasLabel labelToRemove item)) (summary (docs s)))
    (setLabels
       (filter (fun l => negb (l =? labelToRemove)%string) (labels s)) s).

Definition addNewLabel (newLabel : string) (s : State) : State :=
  if negb (newLabel =? "")%string && negb (includes newLabel (labels s))
  then setLabels (labels s ++ [newLabel]) s
  else s.

(** [handleLeftContextMenu] and [handleRightContextMenu]; [selection] is
    [window.getSelection()?.toString() || '']. *)
Definition handleContextMenu (sd : Side) (clientX clientY : Q)
    (selection : string) (s : State) : State :=
  if enableEtiquetar s then
    mkState (enableEtiquetar s) (labels s) (docs s)
            (Some (mkMenu clientX clientY selection sd)) ""
  else s.

(** The [mousedown] listener registered while the menu is open; [inside] is
    the outcome of [target.closest('.context-menu')]. *)
Definition handleClickOutside (inside : bool) (s : State) : State :=
  match contextMenu s with
  | None => s
  | Some _ => if inside then s else closeMenu s
  end.

Definition toggleEtiquetar (s : State) : State :=
  mkState (negb (enableEtiquetar s)) (labels s) (docs s) (contextMenu s)
          (labelSearch s).

Inductive Event :=
| ContextMenuAt (sd : Side) (clientX clientY : Q) (selection : string)
| ClickOutside (inside : bool)
| LabelSelect (l : string)
| RemoveFromSummary (l : string)
| RemoveLabel (l : string)
| AddNewLabel (l : string)
| ToggleEtiquetar
| SwapDocuments (now now' : Z)
| RemoveDocument (sd : Side) (now : Z)
| RefreshDocuments (now now' : Z).

Definition step (s : State) (ev : Event) : State :=
  match ev with
  | ContextMenuAt sd cx cy sel => handleContextMenu sd cx cy sel s
  | ClickOutside inside => handleClickOutside inside s
  | LabelSelect l => handleLabelSelect l s
  | RemoveFromSummary l => removeFromSummary l s
  | RemoveLabel l => removeLabel l s
  | AddNewLabel l => addNewLabel l s
  | ToggleEtiquetar => toggleEtiquetar s
  | SwapDocuments now now' => setDocs (swapDocuments now now' (docs s)) s
  | RemoveDocument sd now => setDocs (removeDocument sd now (docs s)) s
  | RefreshDocuments now now' => setDocs (refreshDocuments now now' (docs s)) s
  end.

Definition run (evs : list Event) (s : State) : State := fold_left step evs s.

(** The row of the report for a label, if any. *)
Definition rowOf (l : string) (s : State) : option SummaryItem :=
  find (hasLabel l) (summary (docs s)).

Definition textOf (sd : Side) (item : SummaryItem) : option string :=
  match sd with Left => itemLeft item | Right => itemRight item end.

(** A row carries a text, possibly empty, on at least one side. *)
Definition hasText (item : SummaryItem) : Prop :=
  itemLeft item <> None \/ itemRight item <> None.

End Labels.

(** ** Theme ([App], App.tsx only) *)

Module Theme.

(** [theme] is the state cell (any string can come out of the storage);
    [stored] is [localStorage.getItem('theme')]; [matches] is the media query
    [(prefers-color-scheme: dark)] and [canListen] tells whether it has an
    [addEventListener] (the effect calls it with [?.]); [darkClass] tells
    whether the document element carries the class [dark]; [listening]
    tells whether a [change] listener of the effect is registered. *)
Record State := mkState {
  theme : string;
  stored : option string;
  matches : bool;
  canListen : bool;
  darkClass : bool;
  listening : bool
}.

(** [(localStorage.getItem('theme') as Theme) || 'system']. *)
Definition initialTheme (stored : option string) : string :=
  match stored with
  | Some t => if (t =? "")%string then "system"%string else t
  | None => "system"%string
  end.

Definition isDark (t : string) (matches : bool) : bool :=
  (t =? "dark")%string || ((t =? "system")%string && matches).

(** [apply(t)]: toggles the class and stores the theme. *)
Definition apply (t : string) (s : State) : State :=
  mkState (theme s) (Some t) (matches s) (canListen s)
          (isDark t (matches s)) (listening s).

(** The effect on [[theme]], after the cleanup of its previous run:
    [apply(theme)], and a listener when the theme is [system]. *)
Definition themeEffect (s : State) : State :=
  let s' := apply (theme s) s in
  mkState (theme s') (stored s') (matches s') (canListen s') (darkClass s')
          ((theme s =? "system")%string && canListen s).

(** First render and its effect, given the storage, the system preference
    and the class the document element happens to carry. *)
Definition mount (stored : option string) (matches canListen class : bool)
  : State :=
  themeEffect
    (mkState (initialTheme stored) stored matches canListen class false).

(** [setTheme(t)]: no render, hence no effect, when the theme is the same. *)
Definition setTheme (t : string) (s : State) : State :=
  if (t =? theme s)%string then s
  else
    themeEffect
      (mkState t (stored s) (matches s) (canListen s) (darkClass s)
               (listening s)).

(** The system preference changes; the listener, if any, calls
    [apply('system')]. *)
Definition systemChange (m : bool) (s : State) : State :=
  let s' :=
    mkState (theme s) (stored s) m (canListen s) (darkClass s) (listening s) in
  if listening s then apply "system" s' else s'.

(** The three buttons and the system. *)
Inductive Event := SetLight | SetSystem | SetDark | SystemChange (m : bool).

Definition step (s : State) (ev : Event) : State :=
  match ev with
  | SetLight => setTheme "light" s
  | SetSystem => setTheme "system" s
  | SetDark => setTheme "dark" s
  | SystemChange m => systemChange m s
  end.

Definition run (evs : list Event) (s : State) : State := fold_left step evs s.

(** The class and the storage agree with the theme and the preference, and
    the listener is there when the theme is [system]. *)
Definition themeApplied (s : State) : Prop :=
  darkClass s = isDark (theme s) (matches s)
  /\ stored s = Some (theme s)
  /\ listening s = ((theme s =? "system")%string && canListen s).

End Theme.

(** ** Zoom linking on doubles

    The handlers of [Zoom] again, with the numbers as the IEEE 754 binary64
    values a JavaScript [number] is: [+] and [-] round to nearest, ties to
    even. Used where it matters that a computed number is exactly another. *)

Module Zoom64.
#[local] Set Warnings "-inexact-float".
Local Open Scope float_scope.

(** [Math.max] and [Math.min] of two numbers: [NaN] if either is [NaN]; of
    two zeros, [+0] is the larger. *)
Definition Math_max (a b : float) : float :=
  if is_nan a || is_nan b then nan
  else if a <? b then b
  else if b <? a then a
  else if is_zero a then a + b
  else a.

Definition Math_min (a b : float) : float :=
  if is_nan a || is_nan b then nan
  else if a <? b then a
  else if b <? a then b
  else if is_zero a then - (- a + - b)
  else a.

Record State := mkState {
  leftScale : float;
  rightScale : float;
  syncZoom : bool;
  zoomDiff : float
}.

Definition initial : State :=
  {| leftScale := 1; rightScale := 1; syncZoom := true; zoomDiff := 0 |}.

Definition setLeftScale (v : float) (s : State) : State :=
  mkState v (rightScale s) (syncZoom s) (zoomDiff s).

Definition setRightScale (v : float) (s : State) : State :=
  mkState (leftScale s) v (syncZoom s) (zoomDiff s).

Definition setSyncZoom (b : bool) (s : State) : State :=
  mkState (leftScale s) (rightScale s) b (zoomDiff s).

Definition setZoomDiff (v : float) (s : State) : State :=
  mkState (leftScale s) (rightScale s) (syncZoom s) v.

Definition changeLeftZoom (delta : float) (s : State) : State :=
  let newScale := Math_max 0.5 (Math_min 2 (leftScale s + delta)) in
  let s' := setLeftScale newScale s in
  if syncZoom s then setRightScale (newScale + zoomDiff s) s' else s'.

Definition changeRightZoom (delta : float) (s : State) : State :=
  let newScale := Math_max 0.5 (Math_min 2 (rightScale s + delta)) in
  let s' := setRightScale newScale s in
  if syncZoom s then setLeftScale (newScale - zoomDiff s) s' else s'.

Definition changeScale (side : Side) (delta : float) (s : State) : State :=
  match side with
  | Left => changeLeftZoom delta s
  | Right => changeRightZoom delta s
  end.

Definition scaleOf (side : Side) (s : State) : float :=
  match side with Left => leftScale s | Right => rightScale s end.

Definition zoomDiffEffect (s : State) : State :=
  if syncZoom s then setZoomDiff (rightScale s - leftScale s) s else s.

(** React compares dependencies with [Object.is]: on numbers, being the same
    value, [NaN] included, [+0] and [-0] apart. *)
Definition Object_is (a b : float) : bool := PrimFloat.Leibniz.eqb a b.

Definition depsChanged (v : Variant) (prev next : State) : bool :=
  match v with
  | AppTsx =>
      negb (Bool.eqb (syncZoom prev) (syncZoom next))
      || negb (Object_is (rightScale prev) (rightScale next))
      || negb (Object_is (leftScale prev) (leftScale next))
  | Part000 =>
      negb (Bool.eqb (syncZoom prev) (syncZoom next))
  end.

Definition commit (v : Variant) (prev : option State) (next : State) : State :=
  match prev with
  | None => zoomDiffEffect next
  | Some p => if depsChanged v p next then zoomDiffEffect next else next
  end.

Definition handle (e : Zoom.Event) (s : State) : State :=
  match e with
  | Zoom.LeftMinus => changeLeftZoom (-0.1) s
  | Zoom.LeftPlus => changeLeftZoom 0.1 s
  | Zoom.RightMinus => changeRightZoom (-0.1) s
  | Zoom.RightPlus => changeRightZoom 0.1 s
  | Zoom.ToggleSyncZoom => setSyncZoom (negb (syncZoom s)) s
  end.

Definition step (v : Variant) (s : State) (e : Zoom.Event) : State :=
  commit v (Some s) (handle e s).

Definition mounted (v : Variant) : State := commit v None initial.

Definition run (v : Variant) (es : list Zoom.Event) : State :=
  fold_left (step v) es (mounted v).

(** Unlink, zoom the left side out six times (the sixth press is clamped to
    0.5), link again: left 0.5, right 1, stored offset 0.5. *)
Definition halfTrace : list Zoom.Event :=
  [Zoom.ToggleSyncZoom;
   Zoom.LeftMinus; Zoom.LeftMinus; Zoom.LeftMinus;
   Zoom.LeftMinus; Zoom.LeftMinus; Zoom.LeftMinus;
   Zoom.ToggleSyncZoom].

End Zoom64.

(** * Properties *)

(** Case analysis on every [Math.max] / [Math.min] in sight. *)
Ltac minmax_at a b spec op :=
  let H := fresh "Hm" in
  let q := fresh "q" in
  destruct (spec a b) as [[? H] | [? H]];
  set (q := op a b) in *; clearbody q.

Ltac minmax :=
  unfold Math_max, Math_min, Zoom.clamp in *;
  repeat match goal with
  | |- context [Qmax ?a ?b] => minmax_at a b Q.max_spec Qmax
  | |- context [Qmin ?a ?b] => minmax_at a b Q.min_spec Qmin
  | _ : context [Qmax ?a ?b] |- _ => minmax_at a b Q.max_spec Qmax
  | _ : context [Qmin ?a ?b] |- _ => minmax_at a b Q.min_spec Qmin
  end.

(** ** Zoom linking *)

Section ZoomProperties.
Import Zoom.

Lemma clamp_inRange (z : Q) : inRange (Math_max 0.5 (Math_min 2 z)).
Proof. unfold inRange. minmax; lra. Qed.

(** The side whose button was pressed is always within [0.5, 2]. *)
Lemma changeLeftZoom_driver (delta : Q) (s : State) :
  leftScale (changeLeftZoom delta s) = clamp (leftScale s + delta) 0.5 2
  /\ inRange (leftScale (changeLeftZoom delta s)).
Proof.
  unfold changeLeftZoom. destruct (syncZoom s); simpl;
    (split; [reflexivity | apply clamp_inRange]).
Qed.

Lemma changeRightZoom_driver (delta : Q) (s : State) :
  rightScale (changeRightZoom delta s) = clamp (rightScale s + delta) 0.5 2
  /\ inRange (rightScale (changeRightZoom delta s)).
Proof.
  unfold changeRightZoom. destruct (syncZoom s); simpl;
    (split; [reflexivity | apply clamp_inRange]).
Qed.

(** When linked, the other side is the new scale plus or minus the stored
    offset, as it comes. *)
Lemma changeScale_derived (side : Side) (delta : Q) (s : State) :
  syncZoom s = true ->
  let s' := changeScale side delta s in
  scaleOf side s' = clamp (scaleOf side s + delta) 0.5 2
  /\ scaleOf (match side with Left => Right | Right => Left end) s'
     = derivedScale side (scaleOf side s') s.
Proof.
  intros H. destruct side; simpl;
    unfold changeLeftZoom, changeRightZoom; rewrite H; simpl; auto.
Qed.

(** When not linked, the other side is left alone. *)
Lemma changeScale_unlinked (side : Side) (delta : Q) (s : State) :
  syncZoom s = false ->
  let s' := changeScale side delta s in
  inRange (scaleOf side s')
  /\ scaleOf (match side with Left => Right | Right => Left end) s'
     = scaleOf (match side with Left => Right | Right => Left end) s.
Proof.
  intros H. destruct side; simpl;
    unfold changeLeftZoom, changeRightZoom; rewrite H; simpl;
    (split; [apply clamp_inRange | reflexivity]).
Qed.

(** The effects never touch a scale or the link flag. *)
Lemma commit_frame (v : Variant) (prev : option State) (next : State) :
  leftScale (commit v prev next) = leftScale next
  /\ rightScale (commit v prev next) = rightScale next
  /\ syncZoom (commit v prev next) = syncZoom next.
Proof.
  unfold commit, zoomDiffEffect.
  destruct prev as [p|]; [destruct (depsChanged v p next)|];
    destruct (syncZoom next) eqn:E; simpl; auto.
Qed.

(** Every run of button presses is reachable by definition. *)
Lemma run_reachable (v : Variant) (es : list Event) : reachable v (run v es).
Proof. exists es. reflexivity. Qed.

(** C1. In both files the buttons alone (unlink, left minus, link, right
    minus four times) lead to a linked state with both scales in [0.5, 2];
    pressing right minus once more gives right 0.5 and left 0.4: the side
    derived through the link is not clamped and leaves [0.5, 2]. *)
Theorem linked_zoom_leaves_range (v : Variant) :
  let s0 := run v zoomOutTrace in
  let s := changeRightZoom (-0.1) s0 in
  reachable v s0
  /\ syncZoom s0 = true
  /\ inRange (leftScale s0) /\ inRange (rightScale s0)
  /\ rightScale s == 0.5
  /\ leftScale s == 0.4
  /\ ~ inRange (leftScale s).
Proof.
  split; [apply run_reachable|].
  destruct v; vm_compute; repeat split; try reflexivity; try discriminate;
    intros [H _]; apply H; reflexivity.
Qed.

(** C2. From the specification's example (left 0.5, right 2.0, linked with
    offset 1.5, reached with the buttons alone), increasing the left scale by
    0.1 gives left 0.6 and right 2.1, which is not the clamped value 2.0. *)
Theorem linked_zoom_example_not_clamped (v : Variant) :
  let s0 := run v exampleTrace in
  let s := changeLeftZoom 0.1 s0 in
  (leftScale s0 == 0.5 /\ rightScale s0 == 2 /\ zoomDiff s0 == 1.5
   /\ syncZoom s0 = true)
  /\ leftScale s == 0.6
  /\ rightScale s == 2.1
  /\ ~ rightScale s == clamp (leftScale s + zoomDiff s0) 0.5 2.
Proof.
  destruct v; vm_compute; repeat split; try reflexivity; discriminate.
Qed.

Lemma changeScale_syncZoom (side : Side) (delta : Q) (s : State) :
  syncZoom (changeScale side delta s) = syncZoom s.
Proof.
  destruct side; simpl; unfold changeLeftZoom, changeRightZoom;
    destruct (syncZoom s) eqn:E; simpl; auto.
Qed.

(** A linked change keeps the difference of the two scales equal to the
    stored offset, whatever the clamping of the pressed side. *)
Lemma changeScale_difference (side : Side) (delta : Q) (s : State) :
  syncZoom s = true ->
  rightScale (changeScale side delta s) - leftScale (changeScale side delta s)
  == zoomDiff s.
Proof.
  intros H. destruct side; simpl;
    unfold changeLeftZoom, changeRightZoom; rewrite H; simpl; lra.
Qed.

Lemma changeScale_zoomDiff (side : Side) (delta : Q) (s : State) :
  zoomDiff (changeScale side delta s) = zoomDiff s.
Proof.
  destruct side; simpl; unfold changeLeftZoom, changeRightZoom;
    destruct (syncZoom s); reflexivity.
Qed.

(** What the effect stores when it runs in a linked render. *)
Lemma zoomDiffEffect_linked (s : State) :
  syncZoom s = true ->
  zoomDiff (zoomDiffEffect s) = rightScale s - leftScale s.
Proof. intros H. unfold zoomDiffEffect. rewrite H. reflexivity. Qed.

(** C7, as stated, fails for the second file: pressing the left plus button
    in the linked initial state changes both scales, and the effect, which
    depends on [syncZoom] alone there, is not run again. *)
Lemma part000_effect_not_rerun_on_scale_change :
  ~ recomputesOnScaleChange Part000.
Proof.
  intros H.
  specialize (H (mounted Part000) (handle LeftPlus (mounted Part000))).
  assert (E : depsChanged Part000 (mounted Part000)
                (handle LeftPlus (mounted Part000)) = false) by reflexivity.
  rewrite H in E; [discriminate | reflexivity | reflexivity |].
  left. vm_compute. discriminate.
Qed.

(** C7, amended. In a linked render: App.tsx runs the effect again whenever
    a scale differs from the previous render, and the offset becomes
    rightScale - leftScale; the second file runs it when the link flag
    differs from the previous render (linking was just switched on) with the
    same result, and otherwise leaves the whole state, offset included, as
    the handler produced it. *)
Theorem zoom_offset_recomputation (prev next : State) :
  syncZoom next = true ->
  (~ leftScale prev == leftScale next \/ ~ rightScale prev == rightScale next ->
   depsChanged AppTsx prev next = true
   /\ zoomDiff (commit AppTsx (Some prev) next)
      = rightScale next - leftScale next)
  /\ (syncZoom prev = false ->
      zoomDiff (commit Part000 (Some prev) next)
      = rightScale next - leftScale next)
  /\ (syncZoom prev = true ->
      depsChanged Part000 prev next = false
      /\ commit Part000 (Some prev) next = next).
Proof.
  intros Hn. split; [|split].
  - intros Hc.
    assert (E : depsChanged AppTsx prev next = true).
    { unfold depsChanged. apply orb_true_iff.
      destruct Hc as [Hc | Hc].
      - right. apply negb_true_iff.
        destruct (Qeq_bool (leftScale prev) (leftScale next)) eqn:Q;
          [apply Qeq_bool_iff in Q; contradiction | reflexivity].
      - left. apply orb_true_iff. right. apply negb_true_iff.
        destruct (Qeq_bool (rightScale prev) (rightScale next)) eqn:Q;
          [apply Qeq_bool_iff in Q; contradiction | reflexivity]. }
    split; [exact E|].
    unfold commit. rewrite E. apply zoomDiffEffect_linked, Hn.
  - intros Hp. unfold commit, depsChanged. rewrite Hp, Hn. simpl.
    apply zoomDiffEffect_linked, Hn.
  - intros Hp. unfold commit, depsChanged. rewrite Hp, Hn. simpl. auto.
Qed.

Lemma zoom_offset_recomputation_witness :
  let prev := mounted AppTsx in
  let next := handle LeftPlus prev in
  syncZoom next = true
  /\ zoomDiff (commit AppTsx (Some prev) next)
     = rightScale next - leftScale next
  /\ commit Part000 (Some prev) next = next.
Proof.
  intros prev next.
  destruct (zoom_offset_recomputation prev next) as (HA & _ & HP).
  - reflexivity.
  - split; [reflexivity|]. split.
    + apply HA. left. vm_compute. discriminate.
    + apply HP. reflexivity.
Defined.

End ZoomProperties.

(** ** The contrast panel *)

Section PanelProperties.
Import Panel.

(** A length of at least [floor] pixels, as a ratio of a viewport of [vp]
    pixels capped at 0.95: positive, at most 0.95, and not below the capped
    ratio of the floor. *)
Lemma capped_ratio_bounds (floor px vp : Q) :
  0 < floor -> 0 < vp ->
  0 < Math_min 0.95 (Math_max floor px / vp) <= 0.95
  /\ Math_min 0.95 (floor / vp) <= Math_min 0.95 (Math_max floor px / vp).
Proof.
  intros Hf Hvp. unfold Math_min, Math_max.
  assert (Hle : floor / vp <= Qmax floor px / vp).
  { apply Qle_shift_div_l; [assumption|].
    unfold Qdiv. rewrite <- Qmult_assoc, (Qmult_comm (/ vp)), Qmult_inv_r by lra.
    rewrite Qmult_1_r. apply Q.le_max_l. }
  assert (Hpos : 0 < floor / vp).
  { apply Qlt_shift_div_l; [assumption | lra]. }
  split; [split|].
  - apply Q.min_glb_lt; lra.
  - apply Q.le_min_l.
  - apply Q.min_le_compat_l. exact Hle.
Qed.

(** The move handler during a resize of the floating panel. *)
Lemma onMouseMove_resizing (e : MouseEvent) (w : Window) (s : State) :
  resizing s = true -> docked s = false ->
  size (onMouseMove e w s)
  = mkSize
      (Math_min 0.95
         (Math_max 260
            (startW (resizeStart s) + (clientX e - startX (resizeStart s)))
          / innerWidth w))
      (Math_min 0.95
         (Math_max 220
            (startH (resizeStart s) + (clientY e - startY (resizeStart s)))
          / innerHeight w)).
Proof.
  intros Hr Hd. unfold onMouseMove. rewrite Hr, Hd. simpl. reflexivity.
Qed.

(** C5, as stated, fails in a small window: in a window of 200 x 200 pixels
    a resize stores both ratios as 0.95, that is 190 pixels each way, below
    the floors of 260 and 220 pixels (ratios 1.3 and 1.1). *)
Lemma resize_below_pixel_floor :
  let s' := onMouseMove smallMove narrowWindow resizingState in
  resizing resizingState = true
  /\ docked resizingState = false
  /\ 0 < innerWidth narrowWindow /\ 0 < innerHeight narrowWindow
  /\ wRatio (size s') == 0.95
  /\ hRatio (size s') == 0.95
  /\ ~ 260 / innerWidth narrowWindow <= wRatio (size s')
  /\ ~ 220 / innerHeight narrowWindow <= hRatio (size s').
Proof.
  vm_compute. repeat split; try reflexivity; intros H; apply H; reflexivity.
Qed.

(** C5, amended. While resizing and not docked, in a window of positive
    width and height, every pointer move stores
    wRatio = min(0.95, max(260, startW + dx) / innerWidth) and
    hRatio = min(0.95, max(220, startH + dy) / innerHeight); both ratios lie
    in (0, 0.95], and neither is below the ratio of its pixel floor capped
    at 0.95. *)
Theorem resize_stores_capped_ratios
    (e : MouseEvent) (w : Window) (s : State) :
  resizing s = true -> docked s = false ->
  0 < innerWidth w -> 0 < innerHeight w ->
  let dx := clientX e - startX (resizeStart s) in
  let dy := clientY e - startY (resizeStart s) in
  let s' := onMouseMove e w s in
  wRatio (size s')
  = Math_min 0.95 (Math_max 260 (startW (resizeStart s) + dx) / innerWidth w)
  /\ hRatio (size s')
     = Math_min 0.95 (Math_max 220 (startH (resizeStart s) + dy) / innerHeight w)
  /\ 0 < wRatio (size s') <= 0.95
  /\ 0 < hRatio (size s') <= 0.95
  /\ Math_min 0.95 (260 / innerWidth w) <= wRatio (size s')
  /\ Math_min 0.95 (220 / innerHeight w) <= hRatio (size s').
Proof.
  intros Hr Hd Hw Hh dx dy s'. unfold s', dx, dy.
  rewrite (onMouseMove_resizing e w s Hr Hd). simpl.
  destruct (capped_ratio_bounds 260
              (startW (resizeStart s) + (clientX e - startX (resizeStart s)))
              (innerWidth w)) as (Hw1 & Hw2); [lra | assumption |].
  destruct (capped_ratio_bounds 220
              (startH (resizeStart s) + (clientY e - startY (resizeStart s)))
              (innerHeight w)) as (Hh1 & Hh2); [lra | assumption |].
  repeat split; try reflexivity; tauto.
Qed.

Lemma resize_stores_capped_ratios_witness :
  let s' := onMouseMove (mkMouseEvent 700 500 false) (mkWindow 1280 720)
              (startResize (mkMouseEvent 340 200 false)
                 (Some (mkRect 320 180)) initial) in
  wRatio (size s') = Math_min 0.95 (Math_max 260 (320 + (700 - 340)) / 1280)
  /\ hRatio (size s') = Math_min 0.95 (Math_max 220 (180 + (500 - 200)) / 720)
  /\ 0 < wRatio (size s') <= 0.95
  /\ 0 < hRatio (size s') <= 0.95
  /\ Math_min 0.95 (260 / 1280) <= wRatio (size s')
  /\ Math_min 0.95 (220 / 720) <= hRatio (size s').
Proof.
  apply (resize_stores_capped_ratios (mkMouseEvent 700 500 false)
           (mkWindow 1280 720)
           (startResize (mkMouseEvent 340 200 false)
              (Some (mkRect 320 180)) initial)).
  - reflexivity.
  - reflexivity.
  - simpl. lra.
  - simpl. lra.
Defined.

(** The dock button changes [docked] and nothing else. *)
Lemma toggleDocked_frame (s : State) :
  toggleDocked s
  = mkState (position s) (dragging s) (dragOffset s) (size s) (resizing s)
            (resizeStart s) (negb (docked s)) (panelZoom s).
Proof. reflexivity. Qed.

(** While docked, a pointer move changes nothing at all. *)
Lemma onMouseMove_docked (e : MouseEvent) (w : Window) (s : State) :
  docked s = true -> onMouseMove e w s = s.
Proof.
  intros Hd. unfold onMouseMove. rewrite Hd, !andb_false_r. reflexivity.
Qed.

(** No handler other than the move handler writes [position] or [size], and
    only the dock button writes [docked]. *)
Lemma step_docked (s : State) (ev : Event) :
  docked s = true -> isToggleDocked ev = false ->
  docked (step s ev) = true
  /\ position (step s ev) = position s
  /\ size (step s ev) = size s.
Proof.
  intros Hd Hev. destruct ev as [e|e w| |e r| | |]; simpl in *;
    try discriminate.
  - unfold onMouseDown. destruct (onDragHandle e); simpl; auto.
  - rewrite (onMouseMove_docked e w s Hd). auto.
  - auto.
  - unfold startResize. destruct r; simpl; auto.
  - auto.
  - auto.
Qed.

Lemma run_docked (evs : list Event) (s : State) :
  docked s = true ->
  forallb (fun ev => negb (isToggleDocked ev)) evs = true ->
  docked (run evs s) = true
  /\ position (run evs s) = position s
  /\ size (run evs s) = size s.
Proof.
  revert s. induction evs as [|ev evs IH]; intros s Hd Hevs; simpl in *.
  - auto.
  - apply andb_true_iff in Hevs. destruct Hevs as [Hev Hevs].
    apply negb_true_iff in Hev.
    destruct (step_docked s ev Hd Hev) as (Hd' & Hp & Hs).
    destruct (IH (step s ev) Hd' Hevs) as (Hd'' & Hp' & Hs').
    unfold run in *. rewrite Hp', Hs'. auto.
Qed.

(** C6. Docking a floating panel flips [docked] and leaves every other cell
    as it is; while docked no pointer move changes the state; and after any
    events other than the dock button, undocking gives back the position
    and the size the panel had before it was docked. *)
Theorem dock_roundtrip_restores_geometry (evs : list Event) (s : State) :
  docked s = false ->
  forallb (fun ev => negb (isToggleDocked ev)) evs = true ->
  let docked_s := toggleDocked s in
  let s' := toggleDocked (run evs docked_s) in
  docked_s = setDocked true s
  /\ position docked_s = position s /\ size docked_s = size s
  /\ (forall e w t, docked t = true -> onMouseMove e w t = t)
  /\ docked s' = false
  /\ position s' = position s
  /\ size s' = size s.
Proof.
  intros Hd Hevs docked_s s'.
  assert (Hds : docked docked_s = true).
  { unfold docked_s, toggleDocked. simpl. rewrite Hd. reflexivity. }
  destruct (run_docked evs docked_s Hds Hevs) as (Hd' & Hp & Hs).
  unfold s'. rewrite toggleDocked_frame. simpl.
  rewrite Hd', Hp, Hs. unfold docked_s, toggleDocked. rewrite Hd. simpl.
  repeat split; auto using onMouseMove_docked.
Qed.

Lemma dock_roundtrip_restores_geometry_witness :
  let evs := [MouseDown (mkMouseEvent 30 30 true);
              MouseMove (mkMouseEvent 90 80 true) (mkWindow 1280 720);
              MouseUp; ZoomIn] in
  let s' := toggleDocked (run evs (toggleDocked initial)) in
  docked s' = false /\ position s' = mkPoint 24 24 /\ size s' = mkSize 0.25 0.25.
Proof.
  intros evs s'.
  destruct (dock_roundtrip_restores_geometry evs initial)
    as (_ & _ & _ & _ & H1 & H2 & H3).
  - reflexivity.
  - reflexivity.
  - exact (conj H1 (conj H2 H3)).
Defined.

Example zoomIn_twice : panelZoom (zoomIn (zoomIn initial)) == 1.2.
Proof. reflexivity. Qed.

Example drag_moves_panel :
  position
    (run [MouseDown (mkMouseEvent 30 30 true);
          MouseMove (mkMouseEvent 90 80 true) (mkWindow 1280 720)] initial)
  = mkPoint (90 - (30 - 24)) (80 - (30 - 24)).
Proof. reflexivity. Qed.

End PanelProperties.

(** ** Scroll linking and mirror scrolling *)

Section ScrollProperties.
Import Scroll.

(** The panel's listeners assign to mirrors only: the latch, the timers, the
    primary containers and the record of primary writes are untouched. *)
Lemma onLeft_frame (s : State) :
  isSyncing (onLeft s) = isSyncing s
  /\ syncScroll (onLeft s) = syncScroll s
  /\ timers (onLeft s) = timers s
  /\ leftContainer (onLeft s) = leftContainer s
  /\ rightContainer (onLeft s) = rightContainer s
  /\ overlayRight (onLeft s) = overlayRight s
  /\ primaryWrites (onLeft s) = primaryWrites s
  /\ writesTo MirrorRight (onLeft s) = writesTo MirrorRight s.
Proof.
  unfold onLeft, assignScrollTop.
  destruct (overlayLeft s) eqn:E; [|repeat split].
  destruct (leftContainer s) eqn:E'; [|rewrite E'; repeat split].
  simpl. rewrite E. simpl. rewrite E'. repeat split.
Qed.

Lemma onRight_frame (s : State) :
  isSyncing (onRight s) = isSyncing s
  /\ syncScroll (onRight s) = syncScroll s
  /\ timers (onRight s) = timers s
  /\ leftContainer (onRight s) = leftContainer s
  /\ rightContainer (onRight s) = rightContainer s
  /\ overlayLeft (onRight s) = overlayLeft s
  /\ primaryWrites (onRight s) = primaryWrites s
  /\ writesTo MirrorLeft (onRight s) = writesTo MirrorLeft s.
Proof.
  unfold onRight, assignScrollTop.
  destruct (overlayRight s) eqn:E; [|repeat split].
  destruct (rightContainer s) eqn:E'; [|rewrite E'; repeat split].
  simpl. rewrite E. simpl. rewrite E'. repeat split.
Qed.

(** With the latch set, or with linking off, the handlers of [App] return at
    once. *)
Lemma onLeftScroll_guard (v : Q) (s : State) :
  syncScroll s = false \/ isSyncing s = true -> onLeftScroll v s = s.
Proof.
  intros [H | H]; unfold onLeftScroll; rewrite H; simpl;
    rewrite ?orb_true_r; reflexivity.
Qed.

Lemma onRightScroll_guard (v : Q) (s : State) :
  syncScroll s = false \/ isSyncing s = true -> onRightScroll v s = s.
Proof.
  intros [H | H]; unfold onRightScroll; rewrite H; simpl;
    rewrite ?orb_true_r; reflexivity.
Qed.

Lemma place_frame (t : Target) (v : Q) (s : State) :
  syncScroll (place t v s) = syncScroll s
  /\ isSyncing (place t v s) = isSyncing s
  /\ scrollDiff (place t v s) = scrollDiff s
  /\ visible (place t v s) = visible s
  /\ timers (place t v s) = timers s
  /\ writes (place t v s) = writes s.
Proof. destruct t; repeat split. Qed.

(** A scroll event on a primary container that finds the latch set or the
    linking off assigns to no primary container and keeps the latch. *)
Lemma dispatchScroll_guard (side : Side) (s : State) :
  syncScroll s = false \/ isSyncing s = true ->
  primaryWrites (dispatchScroll side s) = primaryWrites s
  /\ isSyncing (dispatchScroll side s) = isSyncing s
  /\ syncScroll (dispatchScroll side s) = syncScroll s
  /\ leftContainer (dispatchScroll side s) = leftContainer s
  /\ rightContainer (dispatchScroll side s) = rightContainer s.
Proof.
  intros H. destruct side; unfold dispatchScroll.
  - destruct (leftContainer s) as [v|] eqn:E; [|rewrite E; auto].
    rewrite (onLeftScroll_guard v s H).
    destruct (visible s); [|rewrite E; auto].
    destruct (onLeft_frame s) as (H1 & H2 & _ & H3 & H4 & _ & H6 & _).
    rewrite H1, H2, H3, H4, H6, E. auto.
  - destruct (rightContainer s) as [v|] eqn:E; [|rewrite E; auto].
    rewrite (onRightScroll_guard v s H).
    destruct (visible s); [|rewrite E; auto].
    destruct (onRight_frame s) as (H1 & H2 & _ & H3 & H4 & _ & H6 & _).
    rewrite H1, H2, H3, H4, H6, E. auto.
Qed.

Lemma step_latched (s : State) (ev : Event) :
  isSyncing s = true -> isScroll ev = true ->
  isSyncing (step s ev) = true
  /\ primaryWrites (step s ev) = primaryWrites s.
Proof.
  intros Hl Hev. destruct ev as [side v|side|side| | |]; simpl in *;
    try discriminate.
  - unfold userScroll.
    destruct (scrollTopOf (primaryOf side) s); [|auto].
    destruct (place_frame (primaryOf side) v s) as (_ & Hi & _ & _ & _ & Hw).
    destruct (dispatchScroll_guard side (place (primaryOf side) v s))
      as (H1 & H2 & _); [right; rewrite Hi; exact Hl|].
    rewrite H1, H2, Hi. unfold primaryWrites. rewrite Hw. auto.
  - destruct (dispatchScroll_guard side s) as (H1 & H2 & _); [auto|].
    rewrite H1, H2. auto.
  - auto.
Qed.

(** Until the timer runs, scroll events produce no write to a primary
    container, however many arrive. *)
Lemma run_latched (evs : list Event) (s : State) :
  isSyncing s = true -> forallb isScroll evs = true ->
  isSyncing (run evs s) = true
  /\ primaryWrites (run evs s) = primaryWrites s.
Proof.
  revert s. induction evs as [|ev evs IH]; intros s Hl Hevs; simpl in *.
  - auto.
  - apply andb_true_iff in Hevs. destruct Hevs as [Hev Hevs].
    destruct (step_latched s ev Hl Hev) as (Hl' & Hw).
    destruct (IH (step s ev) Hl' Hevs) as (Hl'' & Hw').
    unfold run in *. rewrite Hl'', Hw', Hw. auto.
Qed.

(** What one user scroll does in a linked page whose latch is clear. *)
Lemma userScroll_linked (side : Side) (v : Q) (s : State) :
  syncScroll s = true -> isSyncing s = false ->
  scrollTopOf (primaryOf side) s <> None ->
  scrollTopOf (primaryOf (other side)) s <> None ->
  let s' := userScroll side v s in
  primaryWrites s'
  = (primaryOf (other side), echoOffset side v s) :: primaryWrites s
  /\ scrollTopOf (primaryOf side) s' = Some v
  /\ scrollTopOf (primaryOf (other side)) s' = Some (echoOffset side v s)
  /\ isSyncing s' = true
  /\ timers s' = S (timers s).
Proof.
  destruct s as [ss sd sy lc rc ol or vis tm ws].
  intros Hs Hi Hown Hpair. simpl in Hs, Hi. subst ss sy.
  destruct side; simpl in Hown, Hpair;
    destruct lc as [l|]; try contradiction;
    destruct rc as [r|]; try contradiction;
    destruct vis, ol, or; cbn; repeat split.
Qed.

(** C3. In a linked page whose latch is clear, one user scroll of a primary
    container makes exactly one assignment to a primary container: the
    paired one receives the scrolled offset plus the stored offset (left
    drives right) or minus it (right drives left). The latch is still set
    when the handler returns and one timer is pending; whatever scroll
    events arrive before that timer runs make no assignment to a primary
    container; the timer clears the latch. In any page, a scroll event that
    finds the latch set or the linking off makes no such assignment. *)
Theorem scroll_echo_guard (side : Side) (v : Q) (s : State) :
  syncScroll s = true -> isSyncing s = false ->
  scrollTopOf (primaryOf side) s <> None ->
  scrollTopOf (primaryOf (other side)) s <> None ->
  let s' := userScroll side v s in
  primaryWrites s'
  = (primaryOf (other side), echoOffset side v s) :: primaryWrites s
  /\ isSyncing s' = true
  /\ timers s' = S (timers s)
  /\ (forall evs, forallb isScroll evs = true ->
      primaryWrites (run evs s') = primaryWrites s')
  /\ isSyncing (timeout s') = false
  /\ (forall side' t, syncScroll t = false \/ isSyncing t = true ->
      primaryWrites (dispatchScroll side' t) = primaryWrites t).
Proof.
  intros Hs Hi Hown Hpair s'.
  destruct (userScroll_linked side v s Hs Hi Hown Hpair)
    as (Hw & _ & _ & Hl & Ht).
  fold s' in Hw, Hl, Ht.
  repeat split; try assumption.
  - intros evs Hevs. apply (run_latched evs s' Hl Hevs).
  - unfold timeout. rewrite Ht. reflexivity.
  - intros side' t H. apply (dispatchScroll_guard side' t H).
Qed.

Lemma scroll_echo_guard_witness :
  let s' := userScroll Left 100 linkedPage in
  primaryWrites s' = [(PrimaryRight, 100 + 40)]
  /\ isSyncing s' = true
  /\ primaryWrites (run [ScrollEvent Right; ScrollEvent Left] s')
     = primaryWrites s'
  /\ isSyncing (timeout s') = false.
Proof.
  intros s'.
  destruct (scroll_echo_guard Left 100 linkedPage)
    as (H1 & H2 & _ & H4 & H5 & _).
  - reflexivity.
  - reflexivity.
  - simpl. discriminate.
  - simpl. discriminate.
  - exact (conj H1 (conj H2
             (conj (H4 [ScrollEvent Right; ScrollEvent Left] eq_refl) H5))).
Defined.

(** The two handlers run by one scroll event do not interfere: whichever
    the browser calls first, every container ends at the same offset, with
    the same assignments made to it. *)
Lemma handlers_commute_left (v : Q) (s : State) (t : Target) :
  leftContainer s = Some v ->
  let a := onLeft (onLeftScroll v s) in
  let b := onLeftScroll v (onLeft s) in
  scrollTopOf t a = scrollTopOf t b
  /\ writesTo t a = writesTo t b
  /\ isSyncing a = isSyncing b
  /\ timers a = timers b.
Proof.
  destruct s as [ss sd sy lc rc ol or vis tm ws]. simpl. intros ->.
  destruct ss, sy, rc as [r|], ol as [m|], t; cbn; auto.
Qed.

(** C8. While the panel is visible, a scroll of a primary container to
    offset [v] assigns [v] to the mirror of the same side, once, and leaves
    the mirror of the other side and its record of assignments alone. The
    panel's listeners and its [sync] assign to no primary container, and a
    scroll event on a mirror changes nothing. *)
Theorem mirror_scroll_one_way (side : Side) (v : Q) (s : State) :
  visible s = true ->
  scrollTopOf (primaryOf side) s <> None ->
  scrollTopOf (mirrorOf side) s <> None ->
  let s' := userScroll side v s in
  scrollTopOf (mirrorOf side) s' = Some v
  /\ writesTo (mirrorOf side) s' = v :: writesTo (mirrorOf side) s
  /\ scrollTopOf (mirrorOf (other side)) s'
     = scrollTopOf (mirrorOf (other side)) s
  /\ writesTo (mirrorOf (other side)) s'
     = writesTo (mirrorOf (other side)) s
  /\ (forall t, primaryWrites (onLeft t) = primaryWrites t
               /\ primaryWrites (onRight t) = primaryWrites t
               /\ primaryWrites (sync t) = primaryWrites t
               /\ leftContainer (sync t) = leftContainer t
               /\ rightContainer (sync t) = rightContainer t)
  /\ (forall side' t, step t (MirrorScrollEvent side') = t).
Proof.
  intros Hv Hown Hmirror s'. split; [|split; [|split; [|split; [|split]]]].
  5: { intros t. unfold sync.
       destruct (onLeft_frame t) as (_ & _ & _ & L1 & L2 & _ & L3 & _).
       destruct (onRight_frame (onLeft t)) as (_ & _ & _ & R1 & R2 & _ & R3 & _).
       destruct (onRight_frame t) as (_ & _ & _ & _ & _ & _ & R4 & _).
       rewrite R1, R2, R3, L1, L2, L3, R4. auto. }
  5: { intros side' t. reflexivity. }
  all: unfold s'; clear s';
    destruct s as [ss sd sy lc rc ol or vis tm ws];
    simpl in Hv; subst vis;
    destruct side; simpl in Hown, Hmirror;
    destruct lc as [l|], rc as [r|], ol as [m|], or as [n|];
    try contradiction; destruct ss, sy; cbn; reflexivity.
Qed.

Lemma mirror_scroll_one_way_witness :
  let s' := userScroll Left 100 linkedPage in
  scrollTopOf MirrorLeft s' = Some 100
  /\ writesTo MirrorLeft s' = [100]
  /\ scrollTopOf MirrorRight s' = Some 40
  /\ writesTo MirrorRight s' = [].
Proof.
  intros s'.
  destruct (mirror_scroll_one_way Left 100 linkedPage)
    as (H1 & H2 & H3 & H4 & _).
  - reflexivity.
  - simpl. discriminate.
  - simpl. discriminate.
  - exact (conj H1 (conj H2 (conj H3 H4))).
Defined.

Example scroll_then_late_echo :
  primaryWrites
    (run [UserScroll Left 100; ScrollEvent Right; Timeout] linkedPage)
  = [(PrimaryRight, 100 + 40)].
Proof. reflexivity. Qed.

End ScrollProperties.

(** ** Document slots *)

Section DocumentProperties.
Import Documents.

(** C9, as stated, fails for the swap: with a.pdf on the left and b.pdf on
    the right, swapping leaves both slots filled. *)
Lemma swap_does_not_clear :
  leftPDF (swapDocuments 3 4 twoLoaded) = Some (mkFile "b.pdf")
  /\ rightPDF (swapDocuments 3 4 twoLoaded) = Some (mkFile "a.pdf")
  /\ leftPDF (swapDocuments 3 4 twoLoaded) <> None
  /\ rightPDF (swapDocuments 3 4 twoLoaded) <> None.
Proof. repeat split; discriminate. Qed.

(** C9, amended. Removing the document of a side leaves that side's handle
    absent and the other side's handle as it was; swapping exchanges the two
    handles (so a slot is empty afterwards exactly when the other one was
    empty before); the refresh button clears both. *)
Theorem handles_after_remove_and_swap
    (side : Side) (now now' : Z) (s : State) :
  handleOf side (removeDocument side now s) = None
  /\ handleOf (match side with Left => Right | Right => Left end)
              (removeDocument side now s)
     = handleOf (match side with Left => Right | Right => Left end) s
  /\ leftPDF (swapDocuments now now' s) = rightPDF s
  /\ rightPDF (swapDocuments now now' s) = leftPDF s
  /\ leftPDF (refreshDocuments now now' s) = None
  /\ rightPDF (refreshDocuments now now' s) = None.
Proof. destruct side; repeat split. Qed.

End DocumentProperties.

(** ** Lazily rendered pages *)

Section PDFViewerProperties.
Import PDFViewer.
Local Open Scope nat_scope.

Lemma existsb_eqb_In (n : nat) (l : list nat) :
  existsb (Nat.eqb n) l = true <-> In n l.
Proof.
  rewrite existsb_exists. split.
  - intros (m & Hm & E). apply Nat.eqb_eq in E. subst. exact Hm.
  - intros H. exists n. split; [exact H | apply Nat.eqb_refl].
Qed.

(** [Set.prototype.add]: membership and absence of repetitions. *)
Lemma setAdd_In (acc : list nat) (m n : nat) :
  In n (setAdd acc m) <-> In n acc \/ n = m.
Proof.
  unfold setAdd. destruct (existsb (Nat.eqb m) acc) eqn:E.
  - apply existsb_eqb_In in E. split; [auto | intros [H | ->]; assumption].
  - rewrite in_app_iff. simpl. intuition.
Qed.

Lemma setAdd_NoDup (acc : list nat) (m : nat) :
  NoDup acc -> NoDup (setAdd acc m).
Proof.
  intros H. unfold setAdd. destruct (existsb (Nat.eqb m) acc) eqn:E.
  - exact H.
  - assert (Hm : ~ In m acc).
    { intros Hin. apply existsb_eqb_In in Hin. congruence. }
    apply NoDup_rev in H. rewrite <- (rev_involutive (acc ++ [m])).
    apply NoDup_rev. rewrite rev_app_distr. simpl. constructor.
    + rewrite <- in_rev. exact Hm.
    + exact H.
Qed.

Lemma fold_setAdd_In (l acc : list nat) (n : nat) :
  In n (fold_left setAdd l acc) <-> In n acc \/ In n l.
Proof.
  revert acc. induction l as [|m l IH]; intros acc; simpl.
  - tauto.
  - rewrite IH, setAdd_In. intuition.
Qed.

Lemma fold_setAdd_NoDup (l acc : list nat) :
  NoDup acc -> NoDup (fold_left setAdd l acc).
Proof.
  revert acc. induction l as [|m l IH]; intros acc H; simpl.
  - exact H.
  - apply IH, setAdd_NoDup, H.
Qed.

Lemma newSet_In (l : list nat) (n : nat) : In n (newSet l) <-> In n l.
Proof. unfold newSet. rewrite fold_setAdd_In. simpl. tauto. Qed.

Lemma newSet_NoDup (l : list nat) : NoDup (newSet l).
Proof. apply fold_setAdd_NoDup. constructor. Qed.

(** The comparator orders numbers as [<=] does. *)
Lemma compareFn_le (a b : nat) : (compareFn a b <=? 0)%Z = true <-> a <= b.
Proof. unfold compareFn. rewrite Z.leb_le. lia. Qed.

Lemma insertBy_perm (n : nat) (l : list nat) :
  Permutation (n :: l) (insertBy compareFn n l).
Proof.
  induction l as [|m l IH]; simpl.
  - reflexivity.
  - destruct (compareFn n m <=? 0)%Z.
    + reflexivity.
    + rewrite perm_swap. constructor. exact IH.
Qed.

Lemma insertBy_sorted (n : nat) (l : list nat) :
  Sorted le l -> Sorted le (insertBy compareFn n l).
Proof.
  induction l as [|m l IH]; intros H; simpl.
  - apply Sorted_cons; constructor.
  - destruct (compareFn n m <=? 0)%Z eqn:E.
    + apply compareFn_le in E.
      apply Sorted_cons; [exact H | apply HdRel_cons, E].
    + assert (Hmn : m <= n).
      { destruct (Nat.le_gt_cases n m) as [Hle | Hlt]; [|lia].
        apply compareFn_le in Hle. congruence. }
      inversion H as [|? ? Hs Hh]; subst.
      constructor; [apply IH, Hs|].
      destruct l as [|k l]; simpl.
      * constructor. exact Hmn.
      * destruct (compareFn n k <=? 0)%Z; constructor;
          [exact Hmn | inversion Hh; assumption].
Qed.

Lemma sortBy_perm (l : list nat) : Permutation l (sortBy compareFn l).
Proof.
  induction l as [|n l IH]; simpl.
  - reflexivity.
  - rewrite <- insertBy_perm. constructor. exact IH.
Qed.

Lemma sortBy_sorted (l : list nat) : Sorted le (sortBy compareFn l).
Proof.
  induction l as [|n l IH]; simpl.
  - constructor.
  - apply insertBy_sorted, IH.
Qed.

(** Non-decreasing without repetitions is strictly increasing. *)
Lemma sorted_NoDup_strict (l : list nat) :
  StronglySorted le l -> NoDup l -> StronglySorted lt l.
Proof.
  induction 1 as [|a l Hs IH Hall]; intros Hnd.
  - constructor.
  - inversion Hnd as [|? ? Hnotin Hnd']; subst.
    constructor; [apply IH, Hnd'|].
    rewrite Forall_forall in *. intros b Hb.
    specialize (Hall b Hb).
    assert (a <> b) by (intros ->; contradiction).
    lia.
Qed.

Lemma callback_In (entries : list Entry) (prev : list nat) (n : nat) :
  In n (callback entries prev) <-> In n prev \/ In n (visibleOf entries).
Proof.
  unfold callback.
  transitivity (In n (newSet (prev ++ visibleOf entries))).
  - split; apply Permutation_in; [symmetry|]; apply sortBy_perm.
  - rewrite newSet_In, in_app_iff. tauto.
Qed.

Lemma callback_NoDup (entries : list Entry) (prev : list nat) :
  NoDup (callback entries prev).
Proof.
  unfold callback.
  apply (Permutation_NoDup (sortBy_perm _)), newSet_NoDup.
Qed.

Lemma callback_sorted (entries : list Entry) (prev : list nat) :
  StronglySorted lt (callback entries prev).
Proof.
  apply sorted_NoDup_strict; [|apply callback_NoDup].
  apply Sorted_StronglySorted; [exact Nat.le_trans | apply sortBy_sorted].
Qed.

(** Callbacks only add pages. *)
Lemma callbacks_grow (more : list (list Entry)) (prev : list nat) (n : nat) :
  In n prev ->
  In n (fold_left (fun prev entries => callback entries prev) more prev).
Proof.
  revert prev. induction more as [|entries more IH]; intros prev H; simpl.
  - exact H.
  - apply IH, callback_In. left. exact H.
Qed.

(** C10. After any series of observer callbacks [visiblePages] is strictly
    increasing and free of repetitions; a callback yields the union of the
    previous pages and the intersecting ones; a page once in the list is in
    it after any further callbacks, and so stays rendered. *)
Theorem visiblePages_sorted_and_growing
    (cbs more : list (list Entry)) (entries : list Entry) :
  StronglySorted lt (run cbs)
  /\ NoDup (run cbs)
  /\ (forall n, In n (run (cbs ++ [entries]))
                <-> In n (run cbs) \/ In n (visibleOf entries))
  /\ (forall n, In n (run cbs) -> In n (run (cbs ++ more)))
  /\ (forall n, rendered n (run cbs) = true ->
                rendered n (run (cbs ++ more)) = true).
Proof.
  assert (Hshape : run cbs = [] \/ exists es prev, run cbs = callback es prev).
  { unfold run. destruct cbs as [|c cbs] using rev_ind; [left; reflexivity|].
    right. rewrite fold_left_app. simpl. eauto. }
  assert (Hgrow : forall n, In n (run cbs) -> In n (run (cbs ++ more))).
  { intros n H. unfold run. rewrite fold_left_app. apply callbacks_grow, H. }
  split; [|split; [|split; [|split]]].
  - destruct Hshape as [-> | (es & prev & ->)];
      [constructor | apply callback_sorted].
  - destruct Hshape as [-> | (es & prev & ->)];
      [constructor | apply callback_NoDup].
  - intros n. unfold run. rewrite fold_left_app. simpl. apply callback_In.
  - exact Hgrow.
  - intros n. unfold rendered. rewrite !existsb_eqb_In. apply Hgrow.
Qed.

Lemma visiblePages_sorted_and_growing_witness :
  let first := [mkEntry true 2; mkEntry true 1; mkEntry false 3] in
  let later := [[mkEntry true 3; mkEntry false 1]; [mkEntry true 2]] in
  StronglySorted lt (run [first])
  /\ NoDup (run [first])
  /\ In 1 (run ([first] ++ later))
  /\ rendered 2 (run ([first] ++ later)) = true.
Proof.
  intros first later.
  destruct (visiblePages_sorted_and_growing [first] later [])
    as (H1 & H2 & _ & H4 & H5).
  split; [exact H1|]. split; [exact H2|]. split.
  - apply H4. simpl. auto.
  - apply H5. reflexivity.
Defined.

Example callback_merges_and_sorts :
  callback [mkEntry true 3; mkEntry false 9; mkEntry true 0; mkEntry true 1]
           [2; 5]
  = [1; 2; 3; 5].
Proof. reflexivity. Qed.

Example newSet_keeps_first_occurrences : newSet [3; 1; 3; 2; 1] = [3; 1; 2].
Proof. reflexivity. Qed.

End PDFViewerProperties.

(** ** File intake and file names *)

Section IntakeProperties.
Import Documents Intake.
Local Open Scope nat_scope.





(** X2. A drop on a side never replaces a loaded document and never touches
    the other side; on an empty side it stores the first dropped file when
    that file is a PDF, and changes nothing otherwise. *)
Theorem handleDrop_only_fills_empty_slot
    (files : list Upload) (side : Side) (s : State) :
  let s' := handleDrop files side s in
  let otherSide := match side with Left => Right | Right => Left end in
  handleOf otherSide s' = handleOf otherSide s
  /\ summary s' = summary s
  /\ (handleOf side s <> None -> s' = s)
  /\ (handleOf side s = None ->
      match files with
      | u :: _ =>
          if isPdf u then handleOf side s' = Some (file u) else s' = s
      | [] => s' = s
      end).
Proof.
  unfold handleDrop. destruct side; simpl;
    destruct s as [l r kl kr sm]; simpl;
    [destruct l as [fl|] | destruct r as [fr|]];
    destruct files as [|u files]; simpl;
    try destruct (isPdf u) eqn:E; simpl; rewrite ?E;
    repeat split; try reflexivity; try congruence.
Qed.

Lemma handleDrop_only_fills_empty_slot_witness :
  let u := mkUpload (mkFile "b.pdf") "application/pdf" in
  let s := Documents.mkState (Some (mkFile "a.pdf")) None 1 2 [] in
  handleDrop [u] Left s = s
  /\ handleOf Right (handleDrop [u] Right s) = Some (mkFile "b.pdf").
Proof.
  intros u s.
  destruct (handleDrop_only_fills_empty_slot [u] Left s) as (_ & _ & H1 & _).
  destruct (handleDrop_only_fills_empty_slot [u] Right s) as (_ & _ & _ & H2).
  split.
  - apply H1. simpl. discriminate.
  - apply (H2 eq_refl).
Defined.

(** X3. The central picker stores PDFs only: whatever the files, each slot
    afterwards holds what it held or a PDF among the files; with no PDF among
    them nothing changes; and from two empty slots the first PDF goes to the
    left and the second, if any, to the right. *)
Theorem handleBothFilesChange_stores_pdfs (files : list Upload) (s : State) :
  let s' := handleBothFilesChange files s in
  (forall side,
      handleOf side s' = handleOf side s
      \/ exists u, In u files /\ isPdf u = true
                   /\ handleOf side s' = Some (file u))
  /\ summary s' = summary s
  /\ (filter isPdf files = [] -> s' = s)
  /\ (leftPDF s = None -> rightPDF s = None ->
      leftPDF s' = option_map file (nth_error (filter isPdf files) 0)
      /\ rightPDF s' = option_map file (nth_error (filter isPdf files) 1)).
Proof.
  unfold handleBothFilesChange.
  destruct (filter isPdf files) as [|u0 [|u1 pdfs]] eqn:E.
  - repeat split; auto.
  - assert (H0 : In u0 files /\ isPdf u0 = true).
    { apply filter_In. rewrite E. left. reflexivity. }
    destruct s as [l r kl kr sm]; simpl.
    split; [|split; [|split]].
    + intros side. destruct l, r, side; simpl; auto;
        right; exists u0; tauto.
    + destruct l, r; reflexivity.
    + discriminate.
    + intros -> ->. auto.
  - assert (H0 : In u0 files /\ isPdf u0 = true).
    { apply filter_In. rewrite E. left. reflexivity. }
    assert (H1 : In u1 files /\ isPdf u1 = true).
    { apply filter_In. rewrite E. right. left. reflexivity. }
    destruct s as [l r kl kr sm]; simpl.
    split; [|split; [|split]].
    + intros [|]; simpl; right; [exists u0 | exists u1]; tauto.
    + reflexivity.
    + discriminate.
    + auto.
Qed.

Lemma handleBothFilesChange_stores_pdfs_witness :
  let files := [mkUpload (mkFile "notes.txt") "text/plain";
                mkUpload (mkFile "a.pdf") "application/pdf";
                mkUpload (mkFile "b.pdf") "application/pdf"] in
  let s := Documents.mkState None None 1 2 [] in
  leftPDF (handleBothFilesChange files s) = Some (mkFile "a.pdf")
  /\ rightPDF (handleBothFilesChange files s) = Some (mkFile "b.pdf").
Proof.
  intros files s.
  destruct (handleBothFilesChange_stores_pdfs files s) as (_ & _ & _ & H).
  apply H; reflexivity.
Defined.

(** X4. Swapping twice gives back both handles and every row of the report;
    one swap keeps the labels of the rows, in order. *)
Theorem swapDocuments_involution (a b c d : Z) (s : State) :
  let s1 := swapDocuments a b s in
  let s2 := swapDocuments c d s1 in
  leftPDF s2 = leftPDF s
  /\ rightPDF s2 = rightPDF s
  /\ summary s2 = summary s
  /\ map label (summary s1) = map label (summary s).
Proof.
  simpl. repeat split.
  - rewrite map_map. rewrite <- (map_id (summary s)) at 2.
    apply map_ext. intros [l il ir]. reflexivity.
  - rewrite map_map. reflexivity.
Qed.

End IntakeProperties.

(** ** Labels and the report *)

Section LabelProperties.
Import Documents Labels.

Lemma assign_nil (l : string) (sd : Side) (t : string) :
  assign l sd t [] = [newItem l sd t].
Proof. reflexivity. Qed.

(** [findIndex] followed by the update or the push, read along the array. *)
Lemma assign_cons (l : string) (sd : Side) (t : string)
    (a : SummaryItem) (prev : list SummaryItem) :
  assign l sd t (a :: prev)
  = if hasLabel l a then withSide sd t a :: prev
    else a :: assign l sd t prev.
Proof.
  unfold assign. simpl. destruct (hasLabel l a); [reflexivity|].
  destruct (findIndex (hasLabel l) prev) as [i|]; simpl; [|reflexivity].
  destruct (nth_error prev i); reflexivity.
Qed.

Lemma hasLabel_withSide (l : string) (sd : Side) (t : string) (a : SummaryItem) :
  hasLabel l (withSide sd t a) = hasLabel l a.
Proof. destruct sd; reflexivity. Qed.

Lemma hasLabel_newItem (l l' : string) (sd : Side) (t : string) :
  hasLabel l' (newItem l sd t) = (l =? l')%string.
Proof. destruct sd; reflexivity. Qed.

Lemma hasLabel_both (l l' : string) (a : SummaryItem) :
  hasLabel l a = true -> hasLabel l' a = true -> l = l'.
Proof.
  unfold hasLabel. intros H H'.
  apply String.eqb_eq in H, H'. congruence.
Qed.

(** Looking up the assigned label finds the updated row, or the new one. *)
Lemma find_assign_same (l : string) (sd : Side) (t : string)
    (prev : list SummaryItem) :
  find (hasLabel l) (assign l sd t prev)
  = Some match find (hasLabel l) prev with
         | Some old => withSide sd t old
         | None => newItem l sd t
         end.
Proof.
  induction prev as [|a prev IH].
  - rewrite assign_nil. simpl. rewrite hasLabel_newItem, String.eqb_refl.
    reflexivity.
  - rewrite assign_cons. simpl. destruct (hasLabel l a) eqn:E; simpl.
    + rewrite hasLabel_withSide, E. reflexivity.
    + rewrite E. exact IH.
Qed.

(** Looking up any other label finds what it found before. *)
Lemma find_assign_other (l l' : string) (sd : Side) (t : string)
    (prev : list SummaryItem) :
  l' <> l ->
  find (hasLabel l') (assign l sd t prev) = find (hasLabel l') prev.
Proof.
  intros Hne. induction prev as [|a prev IH].
  - rewrite assign_nil. simpl. rewrite hasLabel_newItem.
    destruct (String.eqb_spec l l'); [congruence | reflexivity].
  - rewrite assign_cons. simpl. destruct (hasLabel l a) eqn:E; simpl.
    + rewrite hasLabel_withSide.
      destruct (hasLabel l' a) eqn:E'; [|reflexivity].
      exfalso. apply Hne. apply (hasLabel_both l' l a E' E).
    + rewrite IH. reflexivity.
Qed.

Lemma find_filter_same (l : string) (sm : list SummaryItem) :
  find (hasLabel l) (filter (fun item => negb (hasLabel l item)) sm) = None.
Proof.
  induction sm as [|a sm IH]; simpl; [reflexivity|].
  destruct (hasLabel l a) eqn:E; simpl; [exact IH | rewrite E; exact IH].
Qed.

Lemma find_filter_other (l l' : string) (sm : list SummaryItem) :
  l' <> l ->
  find (hasLabel l') (filter (fun item => negb (hasLabel l item)) sm)
  = find (hasLabel l') sm.
Proof.
  intros Hne. induction sm as [|a sm IH]; simpl; [reflexivity|].
  destruct (hasLabel l a) eqn:E; simpl.
  - destruct (hasLabel l' a) eqn:E'; [|exact IH].
    exfalso. apply Hne. apply (hasLabel_both l' l a E' E).
  - rewrite IH. reflexivity.
Qed.

Lemma includes_In (l : string) (ls : list string) :
  includes l ls = true <-> In l ls.
Proof.
  unfold includes. rewrite existsb_exists. split.
  - intros (m & Hm & E). apply String.eqb_eq in E. subst. exact Hm.
  - intros H. exists l. split; [exact H | apply String.eqb_refl].
Qed.

Lemma In_filter_neq (l l' : string) (ls : list string) :
  In l' (filter (fun m => negb (m =? l)%string) ls) <-> In l' ls /\ l' <> l.
Proof.
  rewrite filter_In. rewrite negb_true_iff, String.eqb_neq. tauto.
Qed.

Lemma textOf_withSide (sd sd' : Side) (t : string) (a : SummaryItem) :
  textOf sd' (withSide sd t a)
  = match sd, sd' with
    | Left, Left | Right, Right => Some t
    | _, _ => textOf sd' a
    end.
Proof. destruct sd, sd'; reflexivity. Qed.

(** X5. With the menu open, choosing a label records the selected text in the
    row of that label, on the side the menu was opened on: the row is found
    afterwards (created if there was none), carries the label and the text on
    that side, and keeps on the other side what it had; the rows of all other
    labels, the slots and the list of rows' owners are as before; the menu is
    closed and the search box emptied. *)
Theorem handleLabelSelect_records_text
    (l : string) (menu : ContextMenu) (s : State) :
  contextMenu s = Some menu ->
  let s' := handleLabelSelect l s in
  let otherSide := match side menu with Left => Right | Right => Left end in
  (exists row,
      rowOf l s' = Some row
      /\ label row = l
      /\ textOf (side menu) row = Some (selectedText menu)
      /\ textOf otherSide row
         = match rowOf l s with
           | Some old => textOf otherSide old
           | None => None
           end)
  /\ (forall l', l' <> l -> rowOf l' s' = rowOf l' s)
  /\ leftPDF (docs s') = leftPDF (docs s)
  /\ rightPDF (docs s') = rightPDF (docs s)
  /\ contextMenu s' = None
  /\ labelSearch s' = ""%string.
Proof.
  intros Hm. unfold handleLabelSelect. rewrite Hm. simpl.
  unfold rowOf. simpl. split; [|split].
  - rewrite find_assign_same. eexists. split; [reflexivity|].
    destruct (find (hasLabel l) (summary (docs s))) as [old|] eqn:E.
    + apply find_some in E. destruct E as [_ E].
      apply String.eqb_eq in E.
      destruct (side menu); simpl; auto.
    + destruct (side menu); simpl; auto.
  - intros l' Hne. apply find_assign_other, Hne.
  - auto.
Qed.

Lemma handleLabelSelect_records_text_witness :
  let s := handleContextMenu Right 10 20 "USD 1.000"
             (toggleEtiquetar (initial 0)) in
  exists row,
    rowOf "Sum Aseg" (handleLabelSelect "Sum Aseg" s) = Some row
    /\ textOf Right row = Some "USD 1.000"%string
    /\ textOf Left row = None.
Proof.
  intros s.
  destruct (handleLabelSelect_records_text "Sum Aseg"
              (mkMenu 10 20 "USD 1.000" Right) s eq_refl)
    as ((row & H1 & _ & H3 & H4) & _).
  exists row. split; [exact H1|]. split; [exact H3 | exact H4].
Defined.

(** X6. Choosing a label takes it out of the available labels exactly when
    its row then carries a non-empty text on both sides; otherwise the
    available labels are as before, in particular when the selected text is
    empty. No other label is ever taken out or put in. *)
Theorem handleLabelSelect_retires_complete_label
    (l : string) (menu : ContextMenu) (s : State) :
  contextMenu s = Some menu ->
  let s' := handleLabelSelect l s in
  let complete :=
    match rowOf l s' with
    | Some row => truthy (itemLeft row) && truthy (itemRight row)
    | None => false
    end in
  (complete = true -> ~ In l (labels s'))
  /\ (complete = false -> labels s' = labels s)
  /\ (selectedText menu = ""%string -> labels s' = labels s)
  /\ (forall l', l' <> l -> (In l' (labels s') <-> In l' (labels s))).
Proof.
  intros Hm. unfold handleLabelSelect. rewrite Hm. simpl.
  unfold rowOf. simpl. rewrite find_assign_same.
  set (row := match find (hasLabel l) (summary (docs s)) with
              | Some old => withSide (side menu) (selectedText menu) old
              | None => newItem l (side menu) (selectedText menu)
              end).
  split; [|split; [|split]].
  - intros ->. rewrite In_filter_neq. tauto.
  - intros ->. reflexivity.
  - intros Ht.
    assert (E : truthy (itemLeft row) && truthy (itemRight row) = false).
    { unfold row. rewrite Ht.
      destruct (find (hasLabel l) (summary (docs s))) as [old|];
        destruct (side menu); simpl; rewrite ?andb_false_r; reflexivity. }
    rewrite E. reflexivity.
  - intros l' Hne.
    destruct (truthy (itemLeft row) && truthy (itemRight row)); [|tauto].
    rewrite In_filter_neq. tauto.
Qed.

Lemma handleLabelSelect_retires_complete_label_witness :
  let s1 := handleLabelSelect "Fin"
              (handleContextMenu Left 1 2 "31/12/2024"
                 (toggleEtiquetar (initial 0))) in
  let s2 := handleContextMenu Right 3 4 "31/12/2025" s1 in
  In "Fin"%string (labels s1)
  /\ ~ In "Fin"%string (labels (handleLabelSelect "Fin" s2)).
Proof.
  intros s1 s2. split.
  - destruct (handleLabelSelect_retires_complete_label "Fin"
                (mkMenu 1 2 "31/12/2024" Left)
                (handleContextMenu Left 1 2 "31/12/2024"
                   (toggleEtiquetar (initial 0))) eq_refl)
      as (_ & H & _).
    fold s1 in H. rewrite H by reflexivity. simpl. tauto.
  - destruct (handleLabelSelect_retires_complete_label "Fin"
                (mkMenu 3 4 "31/12/2025" Right) s2 eq_refl) as (H & _).
    apply H. reflexivity.
Defined.

(** X7. Deleting a row of the report removes the row of that label and makes
    the label available (again); the rows and the availability of all other
    labels are untouched. *)
Theorem removeFromSummary_restores_label (l : string) (s : State) :
  let s' := removeFromSummary l s in
  rowOf l s' = None
  /\ In l (labels s')
  /\ (forall l', l' <> l ->
        rowOf l' s' = rowOf l' s /\ (In l' (labels s') <-> In l' (labels s))).
Proof.
  unfold removeFromSummary, rowOf.
  destruct (includes l (labels s)) eqn:E; simpl.
  - split; [apply find_filter_same|]. split; [apply includes_In, E|].
    intros l' Hne. split; [apply find_filter_other, Hne | tauto].
  - split; [apply find_filter_same|]. split.
    + apply in_or_app. right. left. reflexivity.
    + intros l' Hne. split; [apply find_filter_other, Hne|].
      rewrite in_app_iff. simpl. intuition congruence.
Qed.

(** X8. Deleting a label removes it from the available labels and removes
    its row from the report; the rows and the availability of all other
    labels are untouched. *)
Theorem removeLabel_removes_everywhere (l : string) (s : State) :
  let s' := removeLabel l s in
  ~ In l (labels s')
  /\ rowOf l s' = None
  /\ (forall l', l' <> l ->
        rowOf l' s' = rowOf l' s /\ (In l' (labels s') <-> In l' (labels s))).
Proof.
  unfold removeLabel, rowOf. simpl. split; [|split].
  - rewrite In_filter_neq. tauto.
  - apply find_filter_same.
  - intros l' Hne. split; [apply find_filter_other, Hne|].
    rewrite In_filter_neq. tauto.
Qed.

Lemma NoDup_snoc {A : Type} (a : A) (l : list A) :
  NoDup l -> ~ In a l -> NoDup (l ++ [a]).
Proof.
  intros Hl Ha. apply NoDup_rev in Hl.
  rewrite <- (rev_involutive (l ++ [a])). apply NoDup_rev.
  rewrite rev_app_distr. simpl. constructor; [|exact Hl].
  rewrite <- in_rev. exact Ha.
Qed.

(** Dropping rows keeps the remaining labels distinct. *)
Lemma rows_unique_filter (keep : SummaryItem -> bool) (sm : list SummaryItem) :
  NoDup (map label sm) -> NoDup (map label (filter keep sm)).
Proof.
  intros Hsm. induction sm as [|row sm IH]; simpl; [constructor|].
  inversion Hsm as [|? ? Hfresh Hrest]; subst.
  destruct (keep row); simpl; [|apply IH, Hrest].
  constructor; [|apply IH, Hrest].
  intros Hin. apply Hfresh. apply in_map_iff in Hin.
  destruct Hin as (other & Hlabel & Hin). apply filter_In in Hin.
  apply in_map_iff. exists other. tauto.
Qed.

(** The labels of the rows after an assignment: as before when the label has
    a row, with the label appended when it has none. *)
Lemma map_label_assign (l : string) (sd : Side) (t : string)
    (prev : list SummaryItem) :
  map label (assign l sd t prev)
  = if existsb (hasLabel l) prev then map label prev
    else map label prev ++ [l].
Proof.
  induction prev as [|a prev IH].
  - rewrite assign_nil. destruct sd; reflexivity.
  - rewrite assign_cons. simpl. destruct (hasLabel l a) eqn:E; simpl.
    + destruct sd; reflexivity.
    + rewrite IH. destruct (existsb (hasLabel l) prev); reflexivity.
Qed.

Lemma existsb_hasLabel (l : string) (sm : list SummaryItem) :
  existsb (hasLabel l) sm = false -> ~ In l (map label sm).
Proof.
  intros H Hin. apply in_map_iff in Hin. destruct Hin as (a & Ha & Hin).
  assert (E : existsb (hasLabel l) sm = true).
  { apply existsb_exists. exists a. split; [exact Hin|].
    unfold hasLabel. rewrite Ha. apply String.eqb_refl. }
  congruence.
Qed.

Lemma assign_hasText (l : string) (sd : Side) (t : string)
    (prev : list SummaryItem) :
  Forall hasText prev -> Forall hasText (assign l sd t prev).
Proof.
  induction prev as [|a prev IH]; intros H.
  - rewrite assign_nil. constructor; [|constructor].
    destruct sd; [left | right]; simpl; discriminate.
  - rewrite assign_cons. inversion H as [|? ? Ha Hp]; subst.
    destruct (hasLabel l a).
    + constructor; [|exact Hp].
      destruct sd; [left | right]; simpl; discriminate.
    + constructor; [exact Ha | apply IH, Hp].
Qed.

Lemma Forall_filter {A : Type} (P : A -> Prop) (p : A -> bool) (l : list A) :
  Forall P l -> Forall P (filter p l).
Proof.
  rewrite !Forall_forall. intros H a Ha. apply filter_In in Ha. apply H, Ha.
Qed.

Lemma initialLabels_NoDup : NoDup initialLabels.
Proof.
  assert (E : nodup string_dec initialLabels = initialLabels) by reflexivity.
  rewrite <- E. apply NoDup_nodup.
Qed.

(** Every handler keeps the available labels free of repetitions. *)
Lemma step_labels_NoDup (s : State) (ev : Event) :
  NoDup (labels s) -> NoDup (labels (step s ev)).
Proof.
  intros H. destruct ev as [sd cx cy sel|inside|l|l|l|l| |n n'|sd n|n n'];
    simpl; try exact H.
  - unfold handleContextMenu. destruct (enableEtiquetar s); exact H.
  - unfold handleClickOutside. destruct (contextMenu s); [|exact H].
    destruct inside; exact H.
  - unfold handleLabelSelect. destruct (contextMenu s) as [menu|]; [|exact H].
    simpl.
    destruct (find (hasLabel l) _) as [cur|]; [|exact H].
    destruct (truthy (itemLeft cur) && truthy (itemRight cur)); [|exact H].
    apply NoDup_filter, H.
  - unfold removeFromSummary. destruct (includes l (labels s)) eqn:E;
      simpl; [exact H|].
    apply NoDup_snoc; [exact H|].
    intros Hin. apply includes_In in Hin. congruence.
  - apply NoDup_filter, H.
  - unfold addNewLabel. destruct (negb (l =? "")%string); simpl; [|exact H].
    destruct (includes l (labels s)) eqn:E; simpl; [exact H|].
    apply NoDup_snoc; [exact H|].
    intros Hin. apply includes_In in Hin. congruence.
Qed.

(** Every handler keeps one row per label, each with a text on some side. *)
Lemma step_rows_unique (s : State) (ev : Event) :
  NoDup (map label (summary (docs s))) /\ Forall hasText (summary (docs s)) ->
  NoDup (map label (summary (docs (step s ev))))
  /\ Forall hasText (summary (docs (step s ev))).
Proof.
  intros [H F]. destruct ev as [sd cx cy sel|inside|l|l|l|l| |n n'|sd n|n n'];
    simpl; try (split; assumption).
  - unfold handleContextMenu. destruct (enableEtiquetar s); split; assumption.
  - unfold handleClickOutside. destruct (contextMenu s); [|split; assumption].
    destruct inside; split; assumption.
  - unfold handleLabelSelect.
    destruct (contextMenu s) as [menu|]; [|split; assumption].
    simpl. split; [|apply assign_hasText, F].
    rewrite map_label_assign.
    destruct (existsb (hasLabel l) (summary (docs s))) eqn:E; [exact H|].
    apply NoDup_snoc; [exact H | apply existsb_hasLabel, E].
  - unfold removeFromSummary. destruct (includes l (labels s)); simpl;
      (split; [apply rows_unique_filter, H | apply Forall_filter, F]).
  - split; [apply rows_unique_filter, H | apply Forall_filter, F].
  - unfold addNewLabel.
    destruct (negb (l =? "")%string && negb (includes l (labels s)));
      split; assumption.
  - split.
    + rewrite map_map. exact H.
    + rewrite Forall_forall in *. intros a Ha. apply in_map_iff in Ha.
      destruct Ha as (b & <- & Hb). destruct (F b Hb); [right | left];
        assumption.
  - destruct sd; split; assumption.
Qed.

(** X9. Whatever the user does, the available labels never contain the same
    label twice. *)
Theorem labels_never_repeat (now : Z) (evs : list Event) :
  NoDup (labels (run evs (initial now))).
Proof.
  unfold run. induction evs as [|ev evs IH] using rev_ind.
  - apply initialLabels_NoDup.
  - rewrite fold_left_app. simpl. apply step_labels_NoDup, IH.
Qed.

(** X10. Whatever the user does, the report has at most one row per label,
    and every row carries a text on at least one side. *)
Theorem report_rows_unique (now : Z) (evs : list Event) :
  NoDup (map label (summary (docs (run evs (initial now)))))
  /\ Forall hasText (summary (docs (run evs (initial now)))).
Proof.
  unfold run. induction evs as [|ev evs IH] using rev_ind.
  - split; constructor.
  - rewrite fold_left_app. simpl. apply step_rows_unique, IH.
Qed.

End LabelProperties.

(** ** Theme *)

Section ThemeProperties.
Import Theme.

Lemma themeEffect_applied (s : State) : themeApplied (themeEffect s).
Proof. repeat split. Qed.

Lemma setTheme_applied (t : string) (s : State) :
  themeApplied s -> themeApplied (setTheme t s).
Proof.
  intros H. unfold setTheme. destruct (t =? theme s)%string; [exact H|].
  apply themeEffect_applied.
Qed.

Lemma step_applied (s : State) (ev : Event) :
  canListen s = true -> themeApplied s ->
  canListen (step s ev) = true /\ themeApplied (step s ev).
Proof.
  intros Hc H. destruct ev as [| | |m]; simpl.
  - split; [|apply setTheme_applied, H].
    unfold setTheme. destruct ("light" =? theme s)%string; exact Hc.
  - split; [|apply setTheme_applied, H].
    unfold setTheme. destruct ("system" =? theme s)%string; exact Hc.
  - split; [|apply setTheme_applied, H].
    unfold setTheme. destruct ("dark" =? theme s)%string; exact Hc.
  - destruct s as [t st mt cl dk ls]. destruct H as (Hd & Hs & Hl).
    simpl in *. subst cl dk ls. unfold systemChange, themeApplied. simpl.
    inversion Hs; subst st. rewrite andb_true_r.
    destruct (String.eqb_spec t "system") as [-> | Hne]; simpl.
    + auto.
    + unfold isDark. destruct (String.eqb_spec t "system"); [contradiction|].
      simpl. rewrite !orb_false_r. auto.
Qed.

Lemma initialTheme_nonempty (stored0 : option string) (matches0 c0 : bool) :
  theme (mount stored0 matches0 true c0) <> ""%string.
Proof.
  simpl. unfold initialTheme. destruct stored0 as [t|]; [|discriminate].
  destruct (String.eqb_spec t ""); [discriminate | assumption].
Qed.

Lemma step_theme_nonempty (s : State) (ev : Event) :
  theme s <> ""%string -> theme (step s ev) <> ""%string.
Proof.
  intros H. destruct ev as [| | |m]; simpl; unfold setTheme, systemChange;
    try (destruct (_ =? theme s)%string; [exact H | simpl; discriminate]).
  destruct (listening s); exact H.
Qed.

Lemma run_theme_nonempty
    (stored0 : option string) (matches0 c0 : bool) (evs : list Event) :
  theme (run evs (mount stored0 matches0 true c0)) <> ""%string.
Proof.
  unfold run. induction evs as [|ev evs IH] using rev_ind.
  - apply initialTheme_nonempty.
  - rewrite fold_left_app. simpl. apply step_theme_nonempty, IH.
Qed.

(** X11. In a browser whose media query can be listened to, after the page
    has loaded and whatever buttons are pressed and however the system
    preference changes, the document is dark exactly when the theme is
    [dark], or [system] with a dark system preference, and the storage
    holds the current theme; so loading the page again starts with the
    same theme. *)
Theorem theme_always_applied
    (stored0 : option string) (matches0 class0 : bool) (evs : list Event) :
  let s := run evs (mount stored0 matches0 true class0) in
  darkClass s = isDark (theme s) (matches s)
  /\ stored s = Some (theme s)
  /\ initialTheme (stored s) = theme s.
Proof.
  intros s.
  assert (H : canListen s = true /\ themeApplied s).
  { unfold s, run. induction evs as [|ev evs IH] using rev_ind.
    - split; [reflexivity | apply themeEffect_applied].
    - rewrite fold_left_app. simpl. destruct IH as [Hc Ha].
      apply step_applied; assumption. }
  assert (Hne := run_theme_nonempty stored0 matches0 class0 evs). fold s in Hne.
  destruct H as (_ & Hd & Hs & _).
  split; [exact Hd|]. split; [exact Hs|].
  rewrite Hs. simpl.
  destruct (String.eqb_spec (theme s) ""); [contradiction | reflexivity].
Qed.

Lemma theme_always_applied_witness :
  let s := run [SetDark; SystemChange true; SetSystem; SystemChange false]
               (mount None true true false) in
  darkClass s = false /\ initialTheme (stored s) = "system"%string.
Proof.
  intros s.
  destruct (theme_always_applied None true false
              [SetDark; SystemChange true; SetSystem; SystemChange false])
    as (H1 & _ & H3).
  fold s in H1, H3. split.
  - rewrite H1. reflexivity.
  - rewrite H3. reflexivity.
Defined.

End ThemeProperties.

(** ** Scroll linking: the latch and the stored offset *)

Section ScrollLinkProperties.
Import Scroll.

(** The latch is clear with no timer pending, or set with exactly one. *)
Lemma step_latch_timer (s : State) (ev : Event) :
  (isSyncing s = false /\ timers s = O) \/ (isSyncing s = true /\ timers s = 1%nat) ->
  (isSyncing (step s ev) = false /\ timers (step s ev) = O)
  \/ (isSyncing (step s ev) = true /\ timers (step s ev) = 1%nat).
Proof.
  destruct s as [ss sd sy lc rc ol or vis tm ws]. simpl.
  intros [[-> ->] | [-> ->]];
    destruct ev as [[|] v|[|]|sd'| | |]; cbn;
    destruct ss, lc, rc, ol, or, vis; cbn; auto.
Qed.

(** X12. From a page with the latch clear and no timer pending, whatever
    scrolls, timer ticks and switches follow, the latch is set only while
    exactly one timer is pending, and that timer clears it: the latch can
    never stay set. *)
Theorem latch_never_stuck (evs : list Event) (s : State) :
  isSyncing s = false -> timers s = O ->
  let s' := run evs s in
  (isSyncing s' = false /\ timers s' = O)
  \/ (isSyncing s' = true /\ timers s' = 1%nat
      /\ isSyncing (timeout s') = false /\ timers (timeout s') = O).
Proof.
  intros Hi Ht s'.
  assert (H : (isSyncing s' = false /\ timers s' = O)
              \/ (isSyncing s' = true /\ timers s' = 1%nat)).
  { unfold s', run. induction evs as [|ev evs IH] using rev_ind.
    - left. auto.
    - rewrite fold_left_app. simpl. apply step_latch_timer, IH. }
  destruct H as [H | [H1 H2]]; [left; exact H | right].
  unfold timeout. rewrite H2. simpl. auto.
Qed.

Lemma latch_never_stuck_witness :
  let s' := run [UserScroll Left 100; ScrollEvent Right; UserScroll Right 7]
                linkedPage in
  isSyncing s' = true /\ isSyncing (timeout s') = false.
Proof.
  intros s'.
  destruct (latch_never_stuck
              [UserScroll Left 100; ScrollEvent Right; UserScroll Right 7]
              linkedPage eq_refl eq_refl) as [[H _] | (H1 & _ & H3 & _)].
  - discriminate H.
  - exact (conj H1 H3).
Defined.

(** X13. Switching the scroll link on with both documents loaded stores the
    current difference right - left of the two offsets; a user scroll of the
    left side to [v] then assigns [v] plus that difference to the right
    container, and a user scroll of the right side assigns [v] minus that
    difference to the left container, and nothing else is assigned to a
    primary container. With a document missing the stored offset is left as
    it was. *)
Theorem scroll_link_assigns_stored_difference (s : State) :
  syncScroll s = false -> isSyncing s = false ->
  let s1 := toggleSyncScroll s in
  syncScroll s1 = true
  /\ primaryWrites s1 = primaryWrites s
  /\ match leftContainer s, rightContainer s with
     | Some l, Some r =>
         scrollDiff s1 = r - l
         /\ forall v,
              primaryWrites (userScroll Left v s1)
              = (PrimaryRight, v + (r - l)) :: primaryWrites s
              /\ primaryWrites (userScroll Right v s1)
                 = (PrimaryLeft, v - (r - l)) :: primaryWrites s
     | _, _ => scrollDiff s1 = scrollDiff s
     end.
Proof.
  destruct s as [ss sd sy lc rc ol or vis tm ws]. simpl.
  intros -> ->. split; [|split].
  - destruct lc, rc; reflexivity.
  - destruct lc, rc; reflexivity.
  - destruct lc as [l|], rc as [r|]; try reflexivity.
    split; [reflexivity|].
    intros v; destruct vis, ol, or; cbn; split; reflexivity.
Qed.

Lemma scroll_link_assigns_stored_difference_witness :
  let s := mkState false 0 false (Some 30) (Some 250) None None false 0 [] in
  scrollDiff (toggleSyncScroll s) = 250 - 30
  /\ primaryWrites (userScroll Right 500 (toggleSyncScroll s))
     = [(PrimaryLeft, 500 - (250 - 30))].
Proof.
  intros s.
  destruct (scroll_link_assigns_stored_difference s eq_refl eq_refl)
    as (_ & _ & H).
  simpl in H. destruct H as (H1 & H2). split; [exact H1|].
  destruct (H2 500) as (_ & HR). exact HR.
Defined.

(** X23. When the panel is shown, its effect's [sync] assigns the offset of
    each mounted primary container to the mirror of the same side, left
    first, and assigns to no primary container; a side without a document
    receives no assignment. *)
Theorem panel_show_assigns_primary_offsets (s : State) :
  visible s = false ->
  let s' := toggleContrast s in
  visible s' = true
  /\ writes s'
     = match rightContainer s with
       | Some r => [(MirrorRight, r)]
       | None => []
       end
       ++ match leftContainer s with
          | Some l => [(MirrorLeft, l)]
          | None => []
          end
       ++ writes s
  /\ primaryWrites s' = primaryWrites s
  /\ leftContainer s' = leftContainer s
  /\ rightContainer s' = rightContainer s.
Proof.
  destruct s as [ss sd sy lc rc ol or vis tm ws]. simpl. intros ->.
  destruct lc, rc; cbn; auto.
Qed.

Lemma panel_show_assigns_primary_offsets_witness :
  let s := mkState false 0 false (Some 120) None None None false 0 [] in
  writes (toggleContrast s) = [(MirrorLeft, 120)]
  /\ primaryWrites (toggleContrast s) = [].
Proof.
  intros s.
  destruct (panel_show_assigns_primary_offsets s eq_refl)
    as (_ & H1 & H2 & _).
  exact (conj H1 H2).
Defined.

End ScrollLinkProperties.

(** ** The contrast panel: dragging and the local zoom *)

Section PanelGestureProperties.
Import Panel.

(** X14. Pressing on the drag handle of a floating panel and moving the
    pointer moves the panel by exactly the pointer's displacement and leaves
    its size alone; a press elsewhere on the panel starts no drag. *)
Theorem drag_follows_pointer
    (e0 e1 : MouseEvent) (w : Window) (s : State) :
  docked s = false -> resizing s = false ->
  let s' := onMouseMove e1 w (onMouseDown e0 s) in
  (onDragHandle e0 = true ->
     x (position s') == x (position s) + (clientX e1 - clientX e0)
     /\ y (position s') == y (position s) + (clientY e1 - clientY e0)
     /\ size s' = size s)
  /\ (onDragHandle e0 = false -> dragging s = false -> s' = s).
Proof.
  intros Hd Hr. unfold onMouseMove, onMouseDown. split.
  - intros ->. simpl. rewrite Hd, Hr. simpl. repeat split; ring.
  - intros -> Hg. rewrite Hd, Hr, Hg. reflexivity.
Qed.

Lemma drag_follows_pointer_witness :
  let s' := onMouseMove (mkMouseEvent 90 80 true) (mkWindow 1280 720)
              (onMouseDown (mkMouseEvent 30 30 true) initial) in
  x (position s') == 24 + (90 - 30) /\ y (position s') == 24 + (80 - 30).
Proof.
  intros s'.
  destruct (drag_follows_pointer (mkMouseEvent 30 30 true)
              (mkMouseEvent 90 80 true) (mkWindow 1280 720) initial
              eq_refl eq_refl) as (H & _).
  destruct (H eq_refl) as (H1 & H2 & _). exact (conj H1 H2).
Defined.

(** X15. Releasing the button ends both gestures without moving or resizing
    the panel, and the pointer moves that follow change nothing. *)
Theorem release_ends_gestures (evs : list Event) (s : State) :
  forallb isMouseMove evs = true ->
  let s' := onMouseUp s in
  dragging s' = false /\ resizing s' = false
  /\ position s' = position s /\ size s' = size s /\ docked s' = docked s
  /\ run evs s' = s'.
Proof.
  intros Hevs. simpl. repeat split.
  induction evs as [|ev evs IH]; [reflexivity|].
  simpl in Hevs. apply andb_true_iff in Hevs. destruct Hevs as [Hev Hevs].
  destruct ev; try discriminate. simpl.
  unfold run in IH. rewrite <- (IH Hevs) at 2.
  reflexivity.
Qed.

Lemma release_ends_gestures_witness :
  let s := onMouseDown (mkMouseEvent 30 30 true) initial in
  run [MouseMove (mkMouseEvent 400 300 false) (mkWindow 1280 720)]
      (onMouseUp s)
  = onMouseUp s.
Proof.
  intros s.
  destruct (release_ends_gestures
              [MouseMove (mkMouseEvent 400 300 false) (mkWindow 1280 720)] s
              eq_refl) as (_ & _ & _ & _ & _ & H).
  exact H.
Defined.

(** Rounding to the nearest integer, and [toFixed(2)] on hundredths. *)
Lemma Qfloor_half (n : Z) (q : Q) : q == inject_Z n + 0.5 -> Qfloor q = n.
Proof.
  intros E. rewrite (Qfloor_comp _ _ E).
  assert (Hlo := Qfloor_le (inject_Z n + 0.5)).
  assert (Hhi := Qlt_floor (inject_Z n + 0.5)).
  set (f := Qfloor (inject_Z n + 0.5)) in *. clearbody f.
  rewrite inject_Z_plus in Hhi. change (inject_Z 1) with 1 in Hhi.
  destruct (Z_lt_le_dec n f) as [Hlt | Hle].
  - exfalso. assert (H : (n + 1 <= f)%Z) by lia.
    rewrite Zle_Qle, inject_Z_plus in H. change (inject_Z 1) with 1 in H. lra.
  - destruct (Z_lt_le_dec f n) as [Hlt' | Hle']; [|lia].
    exfalso. assert (H : (f + 1 <= n)%Z) by lia.
    rewrite Zle_Qle, inject_Z_plus in H. change (inject_Z 1) with 1 in H. lra.
Qed.

Lemma toFixed2_hundredths (n : Z) (q : Q) :
  q == inject_Z n / 100 -> toFixed2 q == q.
Proof.
  intros E. unfold toFixed2.
  rewrite (Qfloor_half n); [rewrite E; reflexivity|].
  rewrite E. field.
Qed.

(** An integer bound read in the rationals. *)
Ltac z2q H :=
  rewrite Zle_Qle in H; unfold Z.sub in H;
  repeat (rewrite inject_Z_plus in H || rewrite inject_Z_mult in H
          || rewrite inject_Z_opp in H);
  repeat match type of H with
  | context [inject_Z (Zpos ?p)] =>
      change (inject_Z (Zpos p)) with (Zpos p # 1) in H
  | context [inject_Z (Zneg ?p)] =>
      change (inject_Z (Zneg p)) with (Zneg p # 1) in H
  end.

Ltac q_of_z :=
  unfold Z.sub;
  repeat (rewrite inject_Z_plus || rewrite inject_Z_mult
          || rewrite inject_Z_opp);
  repeat match goal with
  | |- context [inject_Z (Zpos ?p)] =>
      change (inject_Z (Zpos p)) with (Zpos p # 1)
  | |- context [inject_Z (Zneg ?p)] =>
      change (inject_Z (Zneg p)) with (Zneg p # 1)
  end.

Lemma tenth (q : Q) : q / 10 == q * 0.1.
Proof. field. Qed.

(** The buttons of the local zoom, on a whole number of tenths. *)
Lemma zoom_tenths (k : Z) (s : State) :
  panelZoom s == inject_Z k / 10 -> (5 <= k <= 20)%Z ->
  panelZoom (zoomIn s) == inject_Z (Z.min 20 (k + 1)) / 10
  /\ panelZoom (zoomOut s) == inject_Z (Z.max 5 (k - 1)) / 10.
Proof.
  intros Hz Hk. unfold zoomIn, zoomOut. simpl. split.
  - rewrite (toFixed2_hundredths (10 * (k + 1))).
    + unfold Math_min. rewrite Hz.
      destruct (Z.min_spec 20 (k + 1)) as [[Hlt ->] | [Hle ->]].
      * rewrite Q.min_l; [reflexivity|]. rewrite tenth.
        assert (H : (20 <= k)%Z) by lia. z2q H. lra.
      * rewrite Q.min_r; [q_of_z; field|]. rewrite tenth. z2q Hle. lra.
    + rewrite Hz. q_of_z. field.
  - rewrite (toFixed2_hundredths (10 * (k - 1))).
    + unfold Math_max. rewrite Hz.
      destruct (Z.max_spec 5 (k - 1)) as [[Hlt ->] | [Hle ->]].
      * rewrite Q.max_r; [q_of_z; field|]. rewrite tenth.
        assert (H : (5 <= k - 1)%Z) by lia. z2q H. lra.
      * rewrite Q.max_l; [reflexivity|]. rewrite tenth.
        assert (H : (k <= 6)%Z) by lia. z2q H. lra.
    + rewrite Hz. q_of_z. field.
Qed.

Lemma step_panelZoom (s : State) (ev : Event) :
  match ev with
  | ZoomIn => panelZoom (step s ev) = panelZoom (zoomIn s)
  | ZoomOut => panelZoom (step s ev) = panelZoom (zoomOut s)
  | _ => panelZoom (step s ev) = panelZoom s
  end.
Proof.
  destruct ev as [e|e w| |e r| | |]; simpl; try reflexivity.
  - unfold onMouseDown. destruct (onDragHandle e); reflexivity.
  - unfold onMouseMove.
    destruct (dragging s && negb (docked s)),
             (resizing s && negb (docked s)); reflexivity.
  - unfold startResize. destruct r; reflexivity.
Qed.

(** X16. Whatever is done to the panel, its local zoom is a whole number of
    tenths between 0.5 and 2. *)
Theorem panel_zoom_on_tenths (evs : list Event) :
  exists k : Z,
    (5 <= k <= 20)%Z
    /\ panelZoom (run evs initial) == inject_Z k / 10
    /\ 0.5 <= panelZoom (run evs initial) <= 2.
Proof.
  assert (H : exists k : Z,
             (5 <= k <= 20)%Z
             /\ panelZoom (run evs initial) == inject_Z k / 10).
  { unfold run. induction evs as [|ev evs IH] using rev_ind.
    - exists 10%Z. split; [lia | reflexivity].
    - rewrite fold_left_app. simpl.
      set (s := fold_left step evs initial) in *.
      destruct IH as (k & Hk & Hz).
      destruct (zoom_tenths k s Hz Hk) as (Hin & Hout).
      assert (Hs := step_panelZoom s ev).
      destruct ev; rewrite Hs;
        try (exists k; split; [exact Hk | exact Hz]).
      + exists (Z.max 5 (k - 1)). split; [lia | exact Hout].
      + exists (Z.min 20 (k + 1)). split; [lia | exact Hin]. }
  destruct H as (k & Hk & Hz). exists k. split; [exact Hk|].
  split; [exact Hz|]. rewrite Hz, tenth.
  destruct Hk as [H5 H20]. z2q H5. z2q H20. split; lra.
Qed.

(** X17. With the local zoom on a whole number of tenths, zooming in and
    then out gives back the same zoom unless it was at the upper limit 2,
    and zooming out and then in gives it back unless it was at the lower
    limit 0.5; at a limit the button towards it changes nothing. *)
Theorem panel_zoom_round_trip (k : Z) (s : State) :
  panelZoom s == inject_Z k / 10 -> (5 <= k <= 20)%Z ->
  ((k < 20)%Z -> panelZoom (zoomOut (zoomIn s)) == panelZoom s)
  /\ ((5 < k)%Z -> panelZoom (zoomIn (zoomOut s)) == panelZoom s)
  /\ (k = 20%Z -> panelZoom (zoomIn s) == panelZoom s)
  /\ (k = 5%Z -> panelZoom (zoomOut s) == panelZoom s).
Proof.
  intros Hz Hk.
  destruct (zoom_tenths k s Hz Hk) as (Hin & Hout).
  split; [|split; [|split]].
  - intros Hlt. rewrite Z.min_r in Hin by lia.
    destruct (zoom_tenths (k + 1) (zoomIn s) Hin) as (_ & H); [lia|].
    rewrite H, Hz. rewrite Z.max_r by lia.
    replace (k + 1 - 1)%Z with k by lia. reflexivity.
  - intros Hlt. rewrite Z.max_r in Hout by lia.
    destruct (zoom_tenths (k - 1) (zoomOut s) Hout) as (H & _); [lia|].
    rewrite H, Hz. rewrite Z.min_r by lia.
    replace (k - 1 + 1)%Z with k by lia. reflexivity.
  - intros ->. rewrite Hin, Hz. reflexivity.
  - intros ->. rewrite Hout, Hz. reflexivity.
Qed.

Lemma panel_zoom_round_trip_witness :
  panelZoom (zoomOut (zoomIn initial)) == panelZoom initial
  /\ panelZoom (zoomIn (zoomOut initial)) == panelZoom initial.
Proof.
  destruct (panel_zoom_round_trip 10 initial) as (H1 & H2 & _).
  - reflexivity.
  - lia.
  - split; [apply H1 | apply H2]; lia.
Defined.

End PanelGestureProperties.

(** ** Zoom linking: what the buttons keep *)

Section ZoomInvariantProperties.
Import Zoom.

(** One press of a zoom button in a linked state with offset 0 and equal
    scales. *)
Lemma step_equal_scales (v : Variant) (s : State) (e : Event) :
  e <> ToggleSyncZoom ->
  syncZoom s = true -> zoomDiff s == 0 -> leftScale s == rightScale s ->
  let s' := step v s e in
  syncZoom s' = true /\ zoomDiff s' == 0 /\ leftScale s' == rightScale s'
  /\ inRange (leftScale s') /\ inRange (rightScale s').
Proof.
  intros He Hs Hd Heq s'. unfold s', step.
  assert (Hside : exists side delta, handle e s = changeScale side delta s).
  { destruct e; try contradiction;
      [exists Left, (-0.1) | exists Left, 0.1
      | exists Right, (-0.1) | exists Right, 0.1]; reflexivity. }
  destruct Hside as (side & delta & ->).
  destruct (commit_frame v (Some s) (changeScale side delta s))
    as (HL & HR & HS).
  assert (Hdiff := changeScale_difference side delta s Hs).
  assert (Hsync := changeScale_syncZoom side delta s).
  assert (Hrange : inRange (scaleOf side (changeScale side delta s))).
  { destruct side; simpl;
      [apply changeLeftZoom_driver | apply changeRightZoom_driver]. }
  rewrite HL, HR, HS, Hsync.
  assert (Hz : zoomDiff (commit v (Some s) (changeScale side delta s)) == 0).
  { unfold commit. destruct (depsChanged v s (changeScale side delta s)).
    - rewrite zoomDiffEffect_linked by (rewrite Hsync; exact Hs). lra.
    - rewrite changeScale_zoomDiff. exact Hd. }
  split; [exact Hs|]. split; [exact Hz|].
  assert (E : leftScale (changeScale side delta s)
              == rightScale (changeScale side delta s)) by lra.
  split; [exact E|].
  unfold inRange in *.
  destruct side; cbn [scaleOf] in Hrange; repeat split; lra.
Qed.

(** X19. As long as the link button is not pressed, the two scales are equal,
    the stored offset is 0, and both scales lie in [0.5, 2], whatever zoom
    buttons are pressed (in both files). *)
Theorem scales_equal_while_never_unlinked (v : Variant) (es : list Event) :
  ~ In ToggleSyncZoom es ->
  let s := run v es in
  syncZoom s = true /\ zoomDiff s == 0 /\ leftScale s == rightScale s
  /\ inRange (leftScale s) /\ inRange (rightScale s).
Proof.
  unfold run. induction es as [|e es IH] using rev_ind; intros Hn.
  - destruct v; vm_compute; repeat split; try reflexivity; discriminate.
  - rewrite fold_left_app. simpl.
    assert (He : e <> ToggleSyncZoom).
    { intros ->. apply Hn, in_or_app. right. left. reflexivity. }
    assert (Hes : ~ In ToggleSyncZoom es).
    { intros H. apply Hn, in_or_app. left. exact H. }
    destruct (IH Hes) as (Hs & Hd & Heq & _).
    apply (step_equal_scales v _ e He Hs Hd Heq).
Qed.

Lemma scales_equal_while_never_unlinked_witness :
  let s := run AppTsx [LeftPlus; LeftPlus; RightMinus; LeftPlus] in
  leftScale s == rightScale s /\ inRange (rightScale s).
Proof.
  intros s.
  destruct (scales_equal_while_never_unlinked AppTsx
              [LeftPlus; LeftPlus; RightMinus; LeftPlus])
    as (_ & _ & H1 & _ & H2).
  - simpl. intros [H | [H | [H | [H | []]]]]; discriminate H.
  - exact (conj H1 H2).
Defined.

End ZoomInvariantProperties.

(** ** Lazily rendered pages: what the list holds *)

Section VisiblePagesProperties.
Import PDFViewer.
Local Open Scope nat_scope.

Lemma visibleOf_In (entries : list Entry) (n : nat) :
  In n (visibleOf entries)
  <-> n <> 0 /\ exists e, In e entries /\ isIntersecting e = true
                          /\ dataPageNumber e = n.
Proof.
  unfold visibleOf. rewrite filter_In, in_map_iff, negb_true_iff, Nat.eqb_neq.
  split.
  - intros [(e & He & Hin) Hn]. apply filter_In in Hin.
    split; [exact Hn|]. exists e. tauto.
  - intros [Hn (e & Hin & Hi & He)]. split; [|exact Hn].
    exists e. split; [exact He|]. apply filter_In. tauto.
Qed.

Lemma callbacks_In (cbs : list (list Entry)) (prev : list nat) (n : nat) :
  In n (fold_left (fun prev entries => callback entries prev) cbs prev)
  <-> In n prev \/ exists entries, In entries cbs /\ In n (visibleOf entries).
Proof.
  revert prev. induction cbs as [|entries cbs IH]; intros prev; simpl.
  - split; [auto | intros [H | (? & [] & _)]; exact H].
  - rewrite IH, callback_In. split.
    + intros [[H | H] | (es & Hes & H)]; eauto.
    + intros [H | (es & [-> | Hes] & H)]; eauto.
Qed.

(** Every page in the list was reported by some callback. *)
Lemma run_reported (cbs : list (list Entry)) (n : nat) :
  In n (run cbs) ->
  exists entries, In entries cbs /\ In n (visibleOf entries).
Proof.
  unfold run. rewrite callbacks_In. simpl. intros [[] | H]. exact H.
Qed.

(** X20. The list of visible pages holds exactly the page numbers other than
    0 that some callback so far has reported as intersecting. *)
Theorem visiblePages_are_the_reported_pages
    (cbs : list (list Entry)) (n : nat) :
  In n (run cbs)
  <-> n <> 0
      /\ exists entries e,
           In entries cbs /\ In e entries
           /\ isIntersecting e = true /\ dataPageNumber e = n.
Proof.
  unfold run. rewrite callbacks_In. simpl. split.
  - intros [[] | (entries & Hes & H)]. apply visibleOf_In in H.
    destruct H as (Hn & e & He & Hi & Hp). split; [exact Hn|].
    exists entries, e. auto.
  - intros (Hn & entries & e & Hes & He & Hi & Hp). right.
    exists entries. split; [exact Hes|]. apply visibleOf_In.
    split; [exact Hn|]. exists e. auto.
Qed.

Lemma run_NoDup (cbs : list (list Entry)) : NoDup (run cbs).
Proof.
  unfold run. destruct cbs as [|c cbs] using rev_ind; [constructor|].
  rewrite fold_left_app. simpl. apply callback_NoDup.
Qed.

Lemma run_sorted (cbs : list (list Entry)) : StronglySorted lt (run cbs).
Proof.
  unfold run. destruct cbs as [|c cbs] using rev_ind; [constructor|].
  rewrite fold_left_app. simpl. apply callback_sorted.
Qed.

Lemma pageNumbers_In (numPages n : nat) :
  In n (pageNumbers numPages) <-> 1 <= n <= numPages.
Proof.
  unfold pageNumbers. rewrite in_map_iff. split.
  - intros (i & <- & Hi). apply in_seq in Hi. lia.
  - intros H. exists (n - 1). split; [lia | apply in_seq; lia].
Qed.

(** X21. When the observed elements are the page placeholders of a document
    of numPages pages, the list of visible pages holds numbers of those
    pages only (1 to numPages) and never more than numPages of them. *)
Theorem visiblePages_bounded (numPages : nat) (cbs : list (list Entry)) :
  (forall entries e, In entries cbs -> In e entries ->
     In (dataPageNumber e) (pageNumbers numPages)) ->
  Forall (fun n => In n (pageNumbers numPages) /\ 1 <= n <= numPages) (run cbs)
  /\ List.length (run cbs) <= numPages.
Proof.
  intros H.
  assert (Hall : forall n, In n (run cbs) -> 1 <= n <= numPages).
  { intros n Hn. apply run_reported in Hn.
    destruct Hn as (entries & Hes & Hn). apply visibleOf_In in Hn.
    destruct Hn as (_ & e & He & _ & <-).
    apply pageNumbers_In, (H entries e Hes He). }
  split.
  - apply Forall_forall. intros n Hn. specialize (Hall n Hn).
    split; [apply pageNumbers_In|]; exact Hall.
  - assert (Hlen : List.length (run cbs) <= List.length (seq 1 numPages)).
    { apply NoDup_incl_length; [apply run_NoDup|].
      intros n Hn. apply in_seq. specialize (Hall n Hn). lia. }
    rewrite length_seq in Hlen. exact Hlen.
Qed.

Lemma visiblePages_bounded_witness :
  List.length (run [[mkEntry true 1; mkEntry true 2];
                    [mkEntry false 1; mkEntry true 3; mkEntry true 2]]) <= 3.
Proof.
  apply (visiblePages_bounded 3
           [[mkEntry true 1; mkEntry true 2];
            [mkEntry false 1; mkEntry true 3; mkEntry true 2]]).
  intros entries e Hes He. simpl in Hes.
  destruct Hes as [<- | [<- | []]]; simpl in He;
    repeat (destruct He as [<- | He]; [simpl; auto|]); destruct He.
Defined.

(** [new Set] of an array without repetitions, then of elements it has. *)
Lemma fold_setAdd_fresh (l acc : list nat) :
  NoDup (acc ++ l) -> fold_left setAdd l acc = acc ++ l.
Proof.
  revert acc. induction l as [|m l IH]; intros acc H; simpl.
  - rewrite app_nil_r. reflexivity.
  - assert (Hm : ~ In m acc).
    { apply NoDup_remove_2 in H. intros Hin. apply H, in_or_app. auto. }
    unfold setAdd at 2.
    destruct (existsb (Nat.eqb m) acc) eqn:E.
    + apply existsb_eqb_In in E. contradiction.
    + rewrite IH; rewrite <- app_assoc; [reflexivity | exact H].
Qed.

Lemma fold_setAdd_known (l acc : list nat) :
  (forall n, In n l -> In n acc) -> fold_left setAdd l acc = acc.
Proof.
  induction l as [|m l IH]; intros H; simpl; [reflexivity|].
  unfold setAdd at 2.
  assert (E : existsb (Nat.eqb m) acc = true).
  { apply existsb_eqb_In, H. left. reflexivity. }
  rewrite E. apply IH. intros n Hn. apply H. right. exact Hn.
Qed.

(** Sorting a sorted array changes nothing. *)
Lemma sortBy_sorted_id (l : list nat) :
  StronglySorted lt l -> sortBy compareFn l = l.
Proof.
  induction 1 as [|a l Hs IH Hall]; simpl; [reflexivity|].
  rewrite IH. destruct l as [|m l]; simpl; [reflexivity|].
  inversion Hall as [|? ? Hm _]; subst.
  assert (E : (compareFn a m <=? 0)%Z = true) by (apply compareFn_le; lia).
  rewrite E. reflexivity.
Qed.

Lemma callback_known (entries : list Entry) (prev : list nat) :
  StronglySorted lt prev ->
  (forall n, In n (visibleOf entries) -> In n prev) ->
  callback entries prev = prev.
Proof.
  intros Hs Hk. unfold callback, newSet.
  assert (Hnd : NoDup prev).
  { clear Hk. induction Hs as [|a l Hs IH Hall]; constructor; [|exact IH].
    intros Hin. rewrite Forall_forall in Hall. specialize (Hall a Hin). lia. }
  rewrite fold_left_app, (fold_setAdd_fresh prev []) by exact Hnd.
  simpl. rewrite (fold_setAdd_known _ _ Hk).
  apply sortBy_sorted_id, Hs.
Qed.

(** X22. A callback that reports only pages already in the list leaves the
    list as it is. *)
Theorem callback_without_news_changes_nothing
    (cbs : list (list Entry)) (entries : list Entry) :
  (forall e, In e entries -> isIntersecting e = true ->
     dataPageNumber e = 0 \/ In (dataPageNumber e) (run cbs)) ->
  run (cbs ++ [entries]) = run cbs.
Proof.
  intros H. unfold run at 1. rewrite fold_left_app. simpl.
  apply callback_known; [apply run_sorted|].
  intros n Hn. apply visibleOf_In in Hn.
  destruct Hn as (Hn0 & e & He & Hi & <-).
  destruct (H e He Hi) as [E | Hin]; [contradiction | exact Hin].
Qed.

Lemma callback_without_news_changes_nothing_witness :
  run ([[mkEntry true 2; mkEntry true 1]]
       ++ [[mkEntry true 1; mkEntry false 5; mkEntry true 0]])
  = run [[mkEntry true 2; mkEntry true 1]].
Proof.
  apply (callback_without_news_changes_nothing
           [[mkEntry true 2; mkEntry true 1]]
           [mkEntry true 1; mkEntry false 5; mkEntry true 0]).
  intros e He Hi. simpl in He.
  destruct He as [<- | [<- | [<- | []]]]; simpl in *;
    try discriminate; auto.
Defined.

End VisiblePagesProperties.

(** ** Zoom linking on doubles *)

Section Zoom64Properties.
Import Zoom64.
#[local] Set Warnings "-inexact-float".
Local Open Scope float_scope.




Lemma Object_is_eq (a b : float) : Object_is a b = true -> a = b.
Proof. apply FloatAxioms.Leibniz.eqb_spec. Qed.

Lemma handle_frame (e : Zoom.Event) (s : State) :
  zoomDiff (handle e s) = zoomDiff s
  /\ (e <> Zoom.ToggleSyncZoom -> syncZoom (handle e s) = syncZoom s).
Proof.
  split.
  - destruct e; simpl; unfold changeLeftZoom, changeRightZoom;
      destruct (syncZoom s); reflexivity.
  - intros He. destruct e; simpl; unfold changeLeftZoom, changeRightZoom;
      try (destruct (syncZoom s) eqn:E; simpl; auto).
    exfalso. apply He. reflexivity.
Qed.

Lemma commit_scales (v : Variant) (prev : option State) (next : State) :
  leftScale (commit v prev next) = leftScale next
  /\ rightScale (commit v prev next) = rightScale next
  /\ syncZoom (commit v prev next) = syncZoom next.
Proof.
  unfold commit, zoomDiffEffect.
  destruct prev as [p|]; [destruct (depsChanged v p next)|];
    destruct (syncZoom next) eqn:E; simpl; auto.
Qed.

(** X18. In App.tsx, in every linked state reached with the buttons, the
    stored offset is exactly the double rightScale - leftScale: the effect
    recomputes it whenever a scale changes, so it follows the rounding of
    the scales instead of staying at the value stored when linking was
    switched on. *)
Theorem stored_offset_follows_scales (es : list Zoom.Event) :
  syncZoom (run AppTsx es) = true ->
  zoomDiff (run AppTsx es)
  = rightScale (run AppTsx es) - leftScale (run AppTsx es).
Proof.
  unfold run. induction es as [|e es IH] using rev_ind.
  - intros _. vm_compute. reflexivity.
  - rewrite fold_left_app. simpl.
    set (s := fold_left (step AppTsx) es (mounted AppTsx)) in *.
    unfold step. intros Hs.
    destruct (commit_scales AppTsx (Some s) (handle e s)) as (HL & HR & HS).
    rewrite HL, HR. rewrite HS in Hs. unfold commit.
    destruct (depsChanged AppTsx s (handle e s)) eqn:D.
    + unfold zoomDiffEffect. rewrite Hs. reflexivity.
    + simpl in D. apply orb_false_iff in D. destruct D as [D DL].
      apply orb_false_iff in D. destruct D as [DS DR].
      apply negb_false_iff in DS, DR, DL.
      apply Object_is_eq in DR, DL. apply Bool.eqb_prop in DS.
      destruct (handle_frame e s) as (Hz & _).
      rewrite Hz, <- DR, <- DL. apply IH. rewrite DS. exact Hs.
Qed.

Lemma stored_offset_follows_scales_witness :
  let s := run AppTsx (halfTrace ++ [Zoom.LeftPlus; Zoom.RightMinus]) in
  zoomDiff s = rightScale s - leftScale s.
Proof.
  intros s.
  apply (stored_offset_follows_scales
           (halfTrace ++ [Zoom.LeftPlus; Zoom.RightMinus])).
  reflexivity.
Defined.

(** In the second file the offset stays as stored when linking was switched
    on, and after the same presses differs from the difference of the
    scales. *)
Example part000_offset_stays_as_stored :
  let s := run Part000 (halfTrace ++ [Zoom.LeftPlus]) in
  Object_is (zoomDiff s) 0.5 = true
  /\ (rightScale s - leftScale s =? zoomDiff s) = false.
Proof. vm_compute. split; reflexivity. Qed.

End Zoom64Properties.
